(** * Style expression evaluators of <model-viewer>

    A shallow embedding of [src/styles/evaluators.ts]: the [Evaluator] base
    class with its cached [evaluate], the [env()], [calc()] and operator
    evaluators, and the spherical evaluator, followed by the properties the
    specification states about them.

    JavaScript numbers are IEEE 754 binary64 values, modelled by Rocq's
    primitive floats.  Strings are [string]; [null] is [None]. *)

From Stdlib Require Import Floats String Ascii List Bool Arith Lia.
Import ListNotations.

Local Open Scope string_scope.
Local Open Scope list_scope.

(* ================================================================== *)
(** ** AST nodes consumed from the parser *)

(** [NumberNode {type: 'number', number, unit}] *)
Record NumberNode := numberNode { number : float; unit : option string }.

(** [IdentNode {type: 'ident', value}] *)
Record IdentNode := identNode { ident_value : string }.

(** [OperatorNode {type: 'operator', value}] *)
Record OperatorNode := operatorNode { operator_value : string }.

(** [ExpressionTerm = NumberNode | IdentNode | OperatorNode | FunctionNode];
    a [FunctionNode] carries [name] and [arguments], an [ExpressionNode]
    carries [terms]. *)
Inductive ExpressionTerm : Type :=
| TNumber (node : NumberNode)
| TIdent (node : IdentNode)
| TOperator (node : OperatorNode)
| TFunction (name : IdentNode) (arguments : list ExpressionNode)
with ExpressionNode : Type :=
| expressionNode (terms : list ExpressionTerm).

Definition terms (e : ExpressionNode) : list ExpressionTerm :=
  match e with expressionNode ts => ts end.

Definition functionNode (name : string) (arguments : list ExpressionNode)
  : ExpressionTerm :=
  TFunction (identNode name) arguments.

(** A node object that is not a function call.  At run time these are the
    objects that can sit where the types say [NumberNode]: the casts in the
    source are unchecked, so an [OperatorNode] or an [IdentNode] can be
    stored in, and returned from, a slot typed [NumberNode]. *)
Inductive Node : Type :=
| Number (n : NumberNode)
| Ident (i : IdentNode)
| Operator (o : OperatorNode).

(** Common fallback node values used for parse error scenarios. *)
Definition ZERO : NumberNode := numberNode 0%float None.
Definition AUTO : IdentNode := identNode "auto".

(* ================================================================== *)
(** ** Completions: a call returns normally or throws *)

Inductive Completion (A : Type) : Type :=
| Normal (a : A)
| Throw.
Arguments Normal {A} a.
Arguments Throw {A}.

Definition bind {A B : Type} (c : Completion A) (k : A -> Completion B)
  : Completion B :=
  match c with
  | Normal a => k a
  | Throw => Throw
  end.

Notation "x <- c ;; k" := (bind c (fun x => k))
  (at level 61, c at next level, right associativity).

(* ================================================================== *)
(** ** Evaluator objects *)

(** The three subclasses of [Evaluator<NumberNode>], each with its private
    slots and the inherited [$lastValue] cache, and
    [Evaluatable<T> = Evaluator<T> | T]. *)
Inductive Evaluator : Type :=
| EnvEvaluator (identNode : option IdentNode) (lastValue : option Node)
| CalcEvaluator (evaluator : option Evaluatable) (lastValue : option Node)
| OperatorEvaluator (operator : OperatorNode) (left right : Evaluatable)
    (lastValue : option Node)
with Evaluatable : Type :=
| Plain (node : Node)
| Computed (e : Evaluator).

Definition lastValue (this : Evaluator) : option Node :=
  match this with
  | EnvEvaluator _ l => l
  | CalcEvaluator _ l => l
  | OperatorEvaluator _ _ _ l => l
  end.

(** [this[$lastValue] = v] *)
Definition setLastValue (this : Evaluator) (v : Node) : Evaluator :=
  match this with
  | EnvEvaluator i _ => EnvEvaluator i (Some v)
  | CalcEvaluator e _ => CalcEvaluator e (Some v)
  | OperatorEvaluator o l r _ => OperatorEvaluator o l r (Some v)
  end.

(* ------------------------------------------------------------------ *)
(** *** Arrays used as stacks *)

(** [a[a.length - 1]] *)
Definition array_last {A : Type} (a : list A) : option A :=
  match rev a with
  | [] => None
  | x :: _ => Some x
  end.

(** [a.pop()]: the removed element (if any) and the shortened array. *)
Definition array_pop {A : Type} (a : list A) : option A * list A :=
  (array_last a, removelast a).

(** [a.push(x)] *)
Definition array_push {A : Type} (a : list A) (x : A) : list A := a ++ [x].

(* ------------------------------------------------------------------ *)
(** *** Construction *)

(** [IS_MULTIPLICATION_RE = /[\*\/]/]: [test] holds when some character of
    the string is an asterisk or a slash. *)
Fixpoint IS_MULTIPLICATION_RE_test (s : string) : bool :=
  match s with
  | EmptyString => false
  | String c s' =>
      Ascii.eqb c "*" || Ascii.eqb c "/" || IS_MULTIPLICATION_RE_test s'
  end.

(** [new EnvEvaluator(envFunction)] *)
Definition new_EnvEvaluator (arguments : list ExpressionNode) : Evaluator :=
  let identNode :=
    match arguments with
    | [] => None
    | expression :: _ => nth_error (terms expression) 0
    end in
  match identNode with
  | Some (TIdent i) => EnvEvaluator (Some i) None
  | _ => EnvEvaluator None None
  end.

(** [Evaluator.evaluatableFor] applied to an entry of [secondOrderTerms].
    Such an entry is an operator node pushed raw, or the result of an
    earlier [evaluatableFor]; an evaluator or a number is returned as it
    is, any other node has no [name], and reading [name.value] throws. *)
Definition evaluatableForEntry (node : Evaluatable) : Completion Evaluatable :=
  match node with
  | Computed _ => Normal node
  | Plain (Number _) => Normal node
  | Plain (Ident _) => Throw
  | Plain (Operator _) => Throw
  end.

Section CalcConstruction.

(** [Evaluator.evaluatableFor] on the terms of the argument; the knot is
    tied in [evaluatableFor] below. *)
Variable evaluatableFor : ExpressionTerm -> Completion Evaluatable.

(** The first loop of the [CalcEvaluator] constructor.  [None] is the early
    [return] that leaves the inner evaluator unset. *)
Fixpoint multiplicativePass (terms : list ExpressionTerm)
    (secondOrderTerms : list Evaluatable)
  : Completion (option (list Evaluatable)) :=
  match terms with
  | [] => Normal (Some secondOrderTerms)
  | term :: terms =>
      let push :=
        entry <- match term with
                 | TOperator o => Normal (Plain (Operator o))
                 | _ => evaluatableFor term
                 end ;;
        multiplicativePass terms (array_push secondOrderTerms entry) in
      match array_last secondOrderTerms with
      | Some (Plain (Operator previousTerm)) =>
          if IS_MULTIPLICATION_RE_test (operator_value previousTerm) then
            let '(_, secondOrderTerms) := array_pop secondOrderTerms in
            let '(leftValue, secondOrderTerms) := array_pop secondOrderTerms in
            match leftValue with
            | None => Normal None
            | Some leftValue =>
                l <- evaluatableForEntry leftValue ;;
                r <- evaluatableFor term ;;
                multiplicativePass terms
                  (array_push secondOrderTerms
                     (Computed (OperatorEvaluator previousTerm l r None)))
            end
          else push
      | _ => push
      end
  end.

(** The second loop, [while (secondOrderTerms.length > 2)], with the array
    split into its first entry and the rest: each round replaces the first
    three entries by one. *)
Fixpoint additiveFold (leftEntry : Evaluatable) (rest : list Evaluatable)
  : Completion (option (list Evaluatable)) :=
  match rest with
  | operator :: rightEntry :: rest =>
      match operator with
      | Plain (Operator operator) =>
          l <- evaluatableForEntry leftEntry ;;
          r <- evaluatableForEntry rightEntry ;;
          additiveFold (Computed (OperatorEvaluator operator l r None)) rest
      | _ => Normal None
      end
  | _ => Normal (Some (leftEntry :: rest))
  end.

Definition additivePass (secondOrderTerms : list Evaluatable)
  : Completion (option (list Evaluatable)) :=
  match secondOrderTerms with
  | [] => Normal (Some [])
  | leftEntry :: rest => additiveFold leftEntry rest
  end.

(** [new CalcEvaluator(calcFunction)] *)
Definition new_CalcEvaluator (arguments : list ExpressionNode)
  : Completion Evaluator :=
  match arguments with
  | [expression] =>
      first <- multiplicativePass (terms expression) [] ;;
      match first with
      | None => Normal (CalcEvaluator None None)
      | Some secondOrderTerms =>
          second <- additivePass secondOrderTerms ;;
          match second with
          | Some [evaluator] => Normal (CalcEvaluator (Some evaluator) None)
          | _ => Normal (CalcEvaluator None None)
          end
      end
  | _ => Normal (CalcEvaluator None None)
  end.

End CalcConstruction.

(** [Evaluator.evaluatableFor(node)] for a term of the AST. *)
Fixpoint evaluatableFor (node : ExpressionTerm) : Completion Evaluatable :=
  match node with
  | TNumber n => Normal (Plain (Number n))
  | TFunction name arguments =>
      if ident_value name =? "calc" then
        e <- new_CalcEvaluator evaluatableFor arguments ;;
        Normal (Computed e)
      else if ident_value name =? "env" then
        Normal (Computed (new_EnvEvaluator arguments))
      else Normal (Plain (Number ZERO))
  | TIdent _ => Throw
  | TOperator _ => Throw
  end.

(** The node object of a term that is not a function call. *)
Definition nodeOfTerm (t : ExpressionTerm) : option Node :=
  match t with
  | TNumber n => Some (Number n)
  | TIdent i => Some (Ident i)
  | TOperator o => Some (Operator o)
  | TFunction _ _ => None
  end.

(** [SphericalStyle = [number, number, number | string]] *)
Definition SphericalStyle : Type := float * float * (float + string).

(** [SphericalEvaluator], an [Evaluator<SphericalStyle>]. *)
Record SphericalEvaluator := mkSpherical {
  theta : Evaluatable;
  phi : Evaluatable;
  radius : Evaluatable;
  sphericalLastValue : option SphericalStyle
}.

(** [new SphericalEvaluator(expressions)] *)
Definition new_SphericalEvaluator (expressions : list ExpressionNode)
  : Completion SphericalEvaluator :=
  let terms :=
    match expressions with
    | [] => []
    | expression :: _ => terms expression
    end in
  let thetaTerm :=
    match nth_error terms 0 with Some t => t | None => TNumber ZERO end in
  let phiTerm :=
    match nth_error terms 1 with Some t => t | None => TNumber ZERO end in
  let radiusTerm :=
    match nth_error terms 2 with Some t => t | None => TIdent AUTO end in
  theta <- evaluatableFor thetaTerm ;;
  phi <- evaluatableFor phiTerm ;;
  radius <- match radiusTerm with
            | TIdent i => Normal (Plain (Ident i))
            | _ => evaluatableFor radiusTerm
            end ;;
  Normal (mkSpherical theta phi radius None).

(* ================================================================== *)
(** ** The environment read by [env()] *)

Record Environment := mkEnvironment {
  window_pageYOffset : float;
  body_scrollHeight : float;
  body_offsetHeight : float;
  documentElement_clientHeight : float;
  documentElement_scrollHeight : float;
  documentElement_offsetHeight : float;
  window_innerHeight : float
}.

Definition is_positive_zero (x : float) : bool :=
  match classify x with PZero => true | _ => false end.

Definition is_negative_zero (x : float) : bool :=
  match classify x with NZero => true | _ => false end.

(** [Math.max(...values)]: [NaN] when a value is [NaN]; otherwise the
    largest value, with [+0] above [-0]. *)
Definition Math_max (values : list float) : float :=
  if existsb is_nan values then nan
  else
    fold_left
      (fun highest n =>
         if is_positive_zero n && is_negative_zero highest then n
         else if (highest <? n)%float then n
         else highest)
      values neg_infinity.

(** A number is falsy when it is [0], [-0] or [NaN]. *)
Definition Number_falsy (x : float) : bool :=
  (x =? 0)%float || is_nan x.

(** [x || y] on numbers *)
Definition Number_or (x y : float) : float :=
  if Number_falsy x then y else x.

(** [x || y] on [string | null]: the empty string is falsy too. *)
Definition unit_or (x y : option string) : option string :=
  match x with
  | Some s => if s =? "" then y else x
  | None => y
  end.

(* ================================================================== *)
(** ** Evaluation *)

(** [Evaluator.prototype.evaluate], shared by every subclass:
    [if (!this.isConstant || this[$lastValue] == null) this[$lastValue] =
    this[$evaluate](); return this[$lastValue]].

    [step] is the outcome of [this[$evaluate]()]: its value, the object
    after the evaluation of its children, and the number of [$evaluate]
    bodies run below it.  The result carries the value, the object with its
    cache, and the number of [$evaluate] bodies run by the call, this one
    included; the count is an observation, it steers nothing. *)
Definition Evaluator_evaluate_method {Self T : Type}
    (isConstant : bool) (lastValue : option T) (this : Self)
    (step : T * Self * nat) (store : Self -> T -> Self) : T * Self * nat :=
  let recompute := let '(v, this', k) := step in (v, store this' v, S k) in
  match lastValue with
  | None => recompute
  | Some v => if negb isConstant then recompute else (v, this, 0)
  end.

(** The getters [isConstant] of the subclasses, and the static
    [Evaluator.isConstant]. *)
Fixpoint isConstant (this : Evaluator) : bool :=
  match this with
  | EnvEvaluator _ _ => false
  | CalcEvaluator evaluator _ =>
      match evaluator with
      | None => true
      | Some evaluator => Evaluator_isConstant evaluator
      end
  | OperatorEvaluator _ l r _ =>
      Evaluator_isConstant l && Evaluator_isConstant r
  end
with Evaluator_isConstant (evaluatable : Evaluatable) : bool :=
  match evaluatable with
  | Computed e => isConstant e
  | Plain _ => true
  end.

Definition SphericalEvaluator_isConstant (this : SphericalEvaluator) : bool :=
  Evaluator_isConstant (theta this) && Evaluator_isConstant (phi this)
  && Evaluator_isConstant (radius this).

(** [EnvEvaluator.prototype[$evaluate]] *)
Definition EnvEvaluator_evaluate (env : Environment)
    (identNode : option IdentNode) : Node :=
  match identNode with
  | Some ident =>
      if ident_value ident =? "window-scroll-y" then
        let verticalScrollPosition := window_pageYOffset env in
        let verticalScrollMax :=
          Math_max [body_scrollHeight env; body_offsetHeight env;
                    documentElement_clientHeight env;
                    documentElement_scrollHeight env;
                    documentElement_offsetHeight env] in
        let scrollY :=
          Number_or
            (verticalScrollPosition / (verticalScrollMax - window_innerHeight env))
            0 in
        Number (numberNode scrollY None)
      else Number ZERO
  | None => Number ZERO
  end.

(** [rightUnit != null && leftUnit != null && rightUnit != leftUnit] *)
Definition mismatched (leftUnit rightUnit : option string) : bool :=
  match rightUnit, leftUnit with
  | Some r, Some l => negb (r =? l)
  | _, _ => false
  end.

(** The body of [OperatorEvaluator.prototype[$evaluate]] after its operands
    have been evaluated and normalized. *)
Definition applyOperator (operator : OperatorNode)
    (leftNode rightNode : NumberNode) : Node :=
  let leftValue := number leftNode in
  let leftUnit := unit leftNode in
  let rightValue := number rightNode in
  let rightUnit := unit rightNode in
  if mismatched leftUnit rightUnit then Number ZERO
  else
    let unit := unit_or leftUnit rightUnit in
    if operator_value operator =? "+" then
      Number (numberNode (leftValue + rightValue) unit)
    else if operator_value operator =? "-" then
      Number (numberNode (leftValue - rightValue) unit)
    else if operator_value operator =? "/" then
      Number (numberNode (leftValue / rightValue) unit)
    else if operator_value operator =? "*" then
      Number (numberNode (leftValue * rightValue) unit)
    else Number ZERO.

Section Evaluation.

(** [normalizeUnit] is imported from [./conversions], which is not part of
    the sources at hand: the evaluators are modelled over any such
    function.  It receives whatever an evaluation handed back and its
    result is read through [number] and [unit]. *)
Variable normalizeUnit : Node -> NumberNode.

(** The environment does not change during one call of [evaluate]. *)
Variable env : Environment.

(** [Evaluator.prototype.evaluate] on the three subclasses, and the static
    [Evaluator.evaluate].  The object after the call is returned next to
    the value, since the call may fill caches at any depth. *)
Fixpoint evaluate (this : Evaluator) : Node * Evaluator * nat :=
  match this with
  | EnvEvaluator ident last =>
      Evaluator_evaluate_method (isConstant this) last this
        (EnvEvaluator_evaluate env ident, this, 0)
        setLastValue
  | CalcEvaluator evaluator last =>
      Evaluator_evaluate_method (isConstant this) last this
        (match evaluator with
         | Some evaluator =>
             let '(v, evaluator', k) := Evaluator_evaluate evaluator in
             (v, CalcEvaluator (Some evaluator') last, k)
         | None => (Number ZERO, this, 0)
         end)
        setLastValue
  | OperatorEvaluator operator l r last =>
      Evaluator_evaluate_method (isConstant this) last this
        (let '(leftResult, l', kl) := Evaluator_evaluate l in
         let '(rightResult, r', kr) := Evaluator_evaluate r in
         (applyOperator operator
            (normalizeUnit leftResult) (normalizeUnit rightResult),
          OperatorEvaluator operator l' r' last,
          kl + kr))
        setLastValue
  end
with Evaluator_evaluate (evaluatable : Evaluatable)
  : Node * Evaluatable * nat :=
  match evaluatable with
  | Computed e => let '(v, e', k) := evaluate e in (v, Computed e', k)
  | Plain node => (node, evaluatable, 0)
  end.

(** [this[$evaluate]()] of the three subclasses: the value, the object
    after its children were evaluated, and the number of [$evaluate]
    bodies run below it. *)
Definition evaluate_step (this : Evaluator) : Node * Evaluator * nat :=
  match this with
  | EnvEvaluator ident _ =>
      (EnvEvaluator_evaluate env ident, this, 0)
  | CalcEvaluator evaluator last =>
      match evaluator with
      | Some evaluator =>
          let '(v, evaluator', k) := Evaluator_evaluate evaluator in
          (v, CalcEvaluator (Some evaluator') last, k)
      | None => (Number ZERO, this, 0)
      end
  | OperatorEvaluator operator l r last =>
      let '(leftResult, l', kl) := Evaluator_evaluate l in
      let '(rightResult, r', kr) := Evaluator_evaluate r in
      (applyOperator operator
         (normalizeUnit leftResult) (normalizeUnit rightResult),
       OperatorEvaluator operator l' r' last,
       kl + kr)
  end.

(** [SphericalEvaluator.prototype[$evaluate]] *)
Definition SphericalEvaluator_evaluate_step (this : SphericalEvaluator)
  : SphericalStyle * SphericalEvaluator * nat :=
  let '(radiusNode, radius', kr) := Evaluator_evaluate (radius this) in
  let '(thetaNode, theta', kt) := Evaluator_evaluate (theta this) in
  let '(phiNode, phi', kp) := Evaluator_evaluate (phi this) in
  ((number (normalizeUnit thetaNode),
    number (normalizeUnit phiNode),
    match radiusNode with
    | Ident i => inr (ident_value i)
    | _ => inl (number (normalizeUnit radiusNode))
    end),
   mkSpherical theta' phi' radius' (sphericalLastValue this),
   kr + kt + kp).

Definition SphericalEvaluator_setLastValue (this : SphericalEvaluator)
    (v : SphericalStyle) : SphericalEvaluator :=
  mkSpherical (theta this) (phi this) (radius this) (Some v).

(** [evaluate()] on a [SphericalEvaluator] *)
Definition SphericalEvaluator_evaluate (this : SphericalEvaluator)
  : SphericalStyle * SphericalEvaluator * nat :=
  Evaluator_evaluate_method
    (SphericalEvaluator_isConstant this) (sphericalLastValue this) this
    (SphericalEvaluator_evaluate_step this)
    SphericalEvaluator_setLastValue.

End Evaluation.

(** The value, the object and the count of an evaluation outcome. *)
Definition valueOf {Self T : Type} (r : T * Self * nat) : T := fst (fst r).
Definition objectOf {Self T : Type} (r : T * Self * nat) : Self := snd (fst r).
Definition stepsOf {Self T : Type} (r : T * Self * nat) : nat := snd r.

(* ================================================================== *)
(** ** The unit normalizer *)

(** [Math.PI] *)
Definition Math_PI : float := 0x1.921fb54442d18p+1%float.

(** Modelled from the spec: [normalizeUnit] of [./conversions] is missing
    from the sources.  The specification describes it as a pure function on
    number nodes mapping [deg] to [rad] and [cm], [mm] to [m], leaving
    [rad], [m] and unitless numbers unchanged; a unit outside the two
    families is left as it is here. *)
Definition normalizeNumber (n : NumberNode) : NumberNode :=
  match unit n with
  | None => n
  | Some u =>
      if u =? "deg" then numberNode (number n * Math_PI / 180) (Some "rad")
      else if u =? "cm" then numberNode (number n / 100) (Some "m")
      else if u =? "mm" then numberNode (number n / 1000) (Some "m")
      else n
  end.

(** Modelled from the spec: the normalizer on whatever reaches it.  The
    specification speaks of number nodes only; a node without [number] and
    [unit] is read as a unitless not-a-number. *)
Definition normalizeUnit (node : Node) : NumberNode :=
  match node with
  | Number n => normalizeNumber n
  | _ => numberNode nan None
  end.

(* ================================================================== *)
(** ** Deserializers ([src/styles/deserializers.ts]) *)

(** [Set<string>]: the members in the order of insertion, each once.
    [result.add(name)] *)
Definition Set_add (members : list string) (name : string) : list string :=
  if existsb (String.eqb name) members then members else members ++ [name].

(** [terms.filter(valueNode => valueNode && valueNode.type === 'ident')] *)
Definition identNodes (terms : list ExpressionTerm) : list IdentNode :=
  flat_map (fun valueNode =>
              match valueNode with
              | TIdent i => [i]
              | _ => []
              end) terms.

Section Deserializers.

(** [parseExpressions] of [./parsers] is not among the sources: the
    deserializers are modelled over any parser, which returns the
    expressions of a string or throws. *)
Variable parseExpressions : string -> Completion (list ExpressionNode).

(** [enumerationDeserializer(allowedNames)(valueString)] *)
Definition enumerationDeserializer (allowedNames : list string)
    (valueString : string) : list string :=
  match parseExpressions valueString with
  | Normal expressions =>
      let names :=
        filter (fun name => existsb (String.eqb name) allowedNames)
          (map ident_value
             (identNodes
                match expressions with
                | [] => []
                | expression :: _ => terms expression
                end)) in
      fold_left Set_add names []
  | Throw => []
  end.

End Deserializers.

(* ================================================================== *)
(** * Vocabulary of the properties *)

(** *** Successive calls and reachability *)

(** Successive calls of [evaluate()] on one object, one environment per
    call: the outcome of each call, the object being handed on. *)
Fixpoint evaluate_each (N : Node -> NumberNode) (envs : list Environment)
    (this : Evaluator) : list (Node * Evaluator * nat) :=
  match envs with
  | [] => []
  | env :: envs =>
      let r := evaluate N env this in
      r :: evaluate_each N envs (objectOf r)
  end.

Fixpoint SphericalEvaluator_evaluate_each (N : Node -> NumberNode)
    (envs : list Environment) (this : SphericalEvaluator)
  : list (SphericalStyle * SphericalEvaluator * nat) :=
  match envs with
  | [] => []
  | env :: envs =>
      let r := SphericalEvaluator_evaluate N env this in
      r :: SphericalEvaluator_evaluate_each N envs (objectOf r)
  end.

(** What [evaluate()] does when it runs [$evaluate]: the value is stored in
    the cache and one more body has run. *)
Definition stored {Self T : Type} (store : Self -> T -> Self)
    (step : T * Self * nat) : T * Self * nat :=
  let '(v, this', k) := step in (v, store this' v, S k).

(** An [EnvEvaluator] within reach of an evaluator: the object itself, or
    one below an operand or an inner evaluator, at any depth. *)
Inductive child : Evaluator -> Evaluator -> Prop :=
| child_inner (e : Evaluator) (last : option Node) :
    child (CalcEvaluator (Some (Computed e)) last) e
| child_left (o : OperatorNode) (e : Evaluator) (r : Evaluatable)
    (last : option Node) :
    child (OperatorEvaluator o (Computed e) r last) e
| child_right (o : OperatorNode) (l : Evaluatable) (e : Evaluator)
    (last : option Node) :
    child (OperatorEvaluator o l (Computed e) last) e.

Inductive reachable : Evaluator -> Evaluator -> Prop :=
| reachable_here (e : Evaluator) : reachable e e
| reachable_below (e c d : Evaluator) :
    child e c -> reachable c d -> reachable e d.

Definition reachesEnv (e : Evaluator) : Prop :=
  exists ident last, reachable e (EnvEvaluator ident last).

Definition Evaluatable_reachesEnv (x : Evaluatable) : Prop :=
  match x with
  | Plain _ => False
  | Computed e => reachesEnv e
  end.

(** *** Evaluation only fills caches *)

(** The object with every cache emptied: its structure. *)
Fixpoint structure (e : Evaluator) : Evaluator :=
  match e with
  | EnvEvaluator ident _ => EnvEvaluator ident None
  | CalcEvaluator None _ => CalcEvaluator None None
  | CalcEvaluator (Some x) _ => CalcEvaluator (Some (Evaluatable_structure x)) None
  | OperatorEvaluator o l r _ =>
      OperatorEvaluator o (Evaluatable_structure l) (Evaluatable_structure r) None
  end
with Evaluatable_structure (x : Evaluatable) : Evaluatable :=
  match x with
  | Plain node => Plain node
  | Computed e => Computed (structure e)
  end.

(** *** Caching (the base contract) *)

(** Every call of a sequence runs the object's own [$evaluate]. *)
Fixpoint each_call_recomputes (N : Node -> NumberNode)
    (envs : list Environment) (this : Evaluator) : Prop :=
  match envs with
  | [] => True
  | env :: envs =>
      evaluate N env this = stored setLastValue (evaluate_step N env this) /\
      each_call_recomputes N envs (objectOf (evaluate N env this))
  end.

Fixpoint SphericalEvaluator_each_call_recomputes (N : Node -> NumberNode)
    (envs : list Environment) (this : SphericalEvaluator) : Prop :=
  match envs with
  | [] => True
  | env :: envs =>
      SphericalEvaluator_evaluate N env this =
        stored SphericalEvaluator_setLastValue
          (SphericalEvaluator_evaluate_step N env this) /\
      SphericalEvaluator_each_call_recomputes N envs
        (objectOf (SphericalEvaluator_evaluate N env this))
  end.

(** *** Caches do not change values *)

(** The value of an evaluator when every cache is ignored: what a newly
    built copy of it computes in the environment. *)
Fixpoint uncachedValue (N : Node -> NumberNode) (env : Environment)
    (e : Evaluator) : Node :=
  match e with
  | EnvEvaluator ident _ => EnvEvaluator_evaluate env ident
  | CalcEvaluator None _ => Number ZERO
  | CalcEvaluator (Some x) _ => Evaluatable_uncachedValue N env x
  | OperatorEvaluator o l r _ =>
      applyOperator o (N (Evaluatable_uncachedValue N env l))
                      (N (Evaluatable_uncachedValue N env r))
  end
with Evaluatable_uncachedValue (N : Node -> NumberNode) (env : Environment)
    (x : Evaluatable) : Node :=
  match x with
  | Plain node => node
  | Computed e => uncachedValue N env e
  end.

(** Every cache that a constant evaluator of the tree holds is the value
    the evaluator computes. *)
Fixpoint cachesAgree (N : Node -> NumberNode) (e : Evaluator) : Prop :=
  (isConstant e = true ->
   forall v, lastValue e = Some v -> forall env, v = uncachedValue N env e) /\
  match e with
  | EnvEvaluator _ _ => True
  | CalcEvaluator None _ => True
  | CalcEvaluator (Some x) _ => Evaluatable_cachesAgree N x
  | OperatorEvaluator _ l r _ =>
      Evaluatable_cachesAgree N l /\ Evaluatable_cachesAgree N r
  end
with Evaluatable_cachesAgree (N : Node -> NumberNode) (x : Evaluatable) : Prop :=
  match x with
  | Plain _ => True
  | Computed e => cachesAgree N e
  end.

Definition childrenAgree (N : Node -> NumberNode) (e : Evaluator) : Prop :=
  match e with
  | EnvEvaluator _ _ => True
  | CalcEvaluator None _ => True
  | CalcEvaluator (Some x) _ => Evaluatable_cachesAgree N x
  | OperatorEvaluator _ l r _ =>
      Evaluatable_cachesAgree N l /\ Evaluatable_cachesAgree N r
  end.

(** *** Constancy *)

(** [calc(1 + calc(1 + ... env(window-scroll-y)))], the [env()] call being
    [depth] calls of [calc()] down. *)
Fixpoint nestedEnv (depth : nat) : ExpressionTerm :=
  match depth with
  | 0 => functionNode "env"
           [expressionNode [TIdent (identNode "window-scroll-y")]]
  | S depth =>
      functionNode "calc"
        [expressionNode [TNumber (numberNode 1 None);
                         TOperator (operatorNode "+");
                         nestedEnv depth]]
  end.

(** *** [calc()]: precedence and associativity *)

Definition unitless (x : float) : NumberNode := numberNode x None.

(** The flat term list of [1 + 2*2.5 - -2/-1]. *)
Definition complexTerms : list ExpressionTerm :=
  [TNumber (unitless 1); TOperator (operatorNode "+");
   TNumber (unitless 2); TOperator (operatorNode "*");
   TNumber (unitless 2.5); TOperator (operatorNode "-");
   TNumber (unitless (-2)); TOperator (operatorNode "/");
   TNumber (unitless (-1))]%float.

Definition literal (x : float) : Evaluatable := Plain (Number (unitless x)).

Definition operation (o : string) (l r : Evaluatable) : Evaluatable :=
  Computed (OperatorEvaluator (operatorNode o) l r None).

(** [(1 + (2 * 2.5)) - (-2 / -1)] *)
Definition complexTree : Evaluatable :=
  operation "-"
    (operation "+" (literal 1) (operation "*" (literal 2) (literal 2.5)))
    (operation "/" (literal (-2)) (literal (-1))).

(** An evaluator or a number: what [evaluatableFor] returns unchanged. *)
Definition isValue (x : Evaluatable) : bool :=
  match x with
  | Computed _ => true
  | Plain (Number _) => true
  | Plain _ => false
  end.

(** A term list in which operands and operators alternate: a first operand
    and then pairs of an operator and an operand, each operand with the
    evaluatable the dispatch returns for it. *)
Definition Operand : Type := ExpressionTerm * Evaluatable.

Definition dispatched (operand : Operand) : Prop :=
  evaluatableFor (fst operand) = Normal (snd operand).

Definition flattenTerms (rest : list (OperatorNode * Operand))
  : list ExpressionTerm :=
  flat_map (fun '(o, operand) => [TOperator o; fst operand]) rest.

Definition flattenEntries (rest : list (OperatorNode * Evaluatable))
  : list Evaluatable :=
  flat_map (fun '(o, x) => [Plain (Operator o); x]) rest.

(** What the first loop leaves: each maximal run of operands joined by
    multiplicative operators folded from the left into one evaluator, the
    other operators kept between the runs. *)
Fixpoint collapseProducts (current : Evaluatable)
    (rest : list (OperatorNode * Operand))
  : Evaluatable * list (OperatorNode * Evaluatable) :=
  match rest with
  | [] => (current, [])
  | (o, operand) :: rest =>
      if IS_MULTIPLICATION_RE_test (operator_value o) then
        collapseProducts
          (Computed (OperatorEvaluator o current (snd operand) None)) rest
      else
        let '(first, more) := collapseProducts (snd operand) rest in
        (current, (o, first) :: more)
  end.

(** What the second loop leaves: the runs folded from the left. *)
Definition foldSums (first : Evaluatable)
    (rest : list (OperatorNode * Evaluatable)) : Evaluatable :=
  fold_left (fun acc '(o, x) => Computed (OperatorEvaluator o acc x None))
    rest first.

(** *** [OperatorEvaluator] *)

(** The arithmetic of the four supported operator symbols. *)
Definition arithmetic (symbol : string) : option (float -> float -> float) :=
  if symbol =? "+" then Some PrimFloat.add
  else if symbol =? "-" then Some PrimFloat.sub
  else if symbol =? "/" then Some PrimFloat.div
  else if symbol =? "*" then Some PrimFloat.mul
  else None.

(** The unit tags of the two families, and no unit. *)
Definition supportedUnit (u : option string) : Prop :=
  u = None \/ u = Some "deg" \/ u = Some "rad" \/
  u = Some "m" \/ u = Some "cm" \/ u = Some "mm".

(** The base unit of a supported unit's family. *)
Definition baseUnit (u : option string) : option string :=
  match u with
  | None => None
  | Some u =>
      if (u =? "deg") || (u =? "rad") then Some "rad" else Some "m"
  end.

(** The first unit that is present. *)
Definition presentUnit (leftUnit rightUnit : option string) : option string :=
  match leftUnit with
  | Some u => Some u
  | None => rightUnit
  end.

(** *** [EnvEvaluator] *)

(** The scroll extent and the quotient that [window-scroll-y] computes. *)
Definition verticalScrollMax (env : Environment) : float :=
  Math_max [body_scrollHeight env; body_offsetHeight env;
            documentElement_clientHeight env;
            documentElement_scrollHeight env;
            documentElement_offsetHeight env].

Definition scrollDivisor (env : Environment) : float :=
  (verticalScrollMax env - window_innerHeight env)%float.

Definition scrollQuotient (env : Environment) : float :=
  (window_pageYOffset env / scrollDivisor env)%float.

Definition windowScrollY : IdentNode := identNode "window-scroll-y".

(** A page scrolled by 10 whose content is exactly as high as the
    viewport. *)
Definition scrolledFullPage : Environment :=
  mkEnvironment 10 500 500 500 500 500 500.

(** The same page at rest: position 0 over a scroll range of 0. *)
Definition restingFullPage : Environment :=
  mkEnvironment 0 500 500 500 500 500 500.

(** The number of a node, and [NaN] for a node without one. *)
Definition numberOf (node : Node) : float :=
  match node with
  | Number n => number n
  | _ => nan
  end.

(** *** [CalcEvaluator]: failed reductions *)

Definition isMultiplicationEntry (x : Evaluatable) : bool :=
  match x with
  | Plain (Operator o) => IS_MULTIPLICATION_RE_test (operator_value o)
  | _ => false
  end.

(** A stack from which the first loop cannot bail out: its top is no
    multiplicative operator, or something lies beneath the top. *)
Definition hasLeftOperand (secondOrderTerms : list Evaluatable) : Prop :=
  match array_last secondOrderTerms with
  | None => False
  | Some top =>
      isMultiplicationEntry top = false \/ 2 <= length secondOrderTerms
  end.

(** The ways in which the constructor leaves the inner evaluator unset. *)
Inductive CalcFails (arguments : list ExpressionNode) : Prop :=
| fails_argument_count :
    length arguments <> 1 -> CalcFails arguments
| fails_no_left_operand (expression : ExpressionNode) :
    arguments = [expression] ->
    multiplicativePass evaluatableFor (terms expression) [] = Normal None ->
    CalcFails arguments
| fails_middle_entry (expression : ExpressionNode)
    (secondOrderTerms : list Evaluatable) :
    arguments = [expression] ->
    multiplicativePass evaluatableFor (terms expression) [] =
      Normal (Some secondOrderTerms) ->
    additivePass secondOrderTerms = Normal None ->
    CalcFails arguments
| fails_remaining (expression : ExpressionNode)
    (secondOrderTerms remaining : list Evaluatable) :
    arguments = [expression] ->
    multiplicativePass evaluatableFor (terms expression) [] =
      Normal (Some secondOrderTerms) ->
    additivePass secondOrderTerms = Normal (Some remaining) ->
    length remaining <> 1 ->
    CalcFails arguments.

(** *** [SphericalEvaluator] *)

(** The terms the constructor destructures: those of the first expression. *)
Definition firstTerms (expressions : list ExpressionNode) : list ExpressionTerm :=
  match expressions with
  | [] => []
  | expression :: _ => terms expression
  end.

Definition defaultSpherical : SphericalEvaluator :=
  mkSpherical (Plain (Number ZERO)) (Plain (Number ZERO)) (Plain (Ident AUTO)) None.

(** *** Built evaluators, uncached values, arithmetic of [calc()] *)

(** No operand of an [OperatorEvaluator] of the tree is an operator node or
    an identifier node. *)
Fixpoint operandsAreValues (e : Evaluator) : Prop :=
  match e with
  | EnvEvaluator _ _ => True
  | CalcEvaluator None _ => True
  | CalcEvaluator (Some x) _ => Evaluatable_operandsAreValues x
  | OperatorEvaluator _ l r _ =>
      isValue l = true /\ isValue r = true /\
      Evaluatable_operandsAreValues l /\ Evaluatable_operandsAreValues r
  end
with Evaluatable_operandsAreValues (x : Evaluatable) : Prop :=
  match x with
  | Plain _ => True
  | Computed e => operandsAreValues e
  end.

(** A function named [env] occurs in the term, at any depth. *)
Fixpoint mentionsEnv (t : ExpressionTerm) : bool :=
  match t with
  | TFunction name arguments =>
      (ident_value name =? "env")
      || existsb (fun e => existsb mentionsEnv (terms e)) arguments
  | _ => false
  end.

(** The third element of the triple, from the evaluated radius. *)
Definition radiusOutput (N : Node -> NumberNode) (radiusNode : Node)
  : float + string :=
  match radiusNode with
  | Ident i => inr (ident_value i)
  | _ => inl (number (N radiusNode))
  end.

(** The value of a spherical evaluator when every cache is ignored. *)
Definition SphericalEvaluator_uncachedValue (N : Node -> NumberNode)
    (env : Environment) (s : SphericalEvaluator) : SphericalStyle :=
  (number (N (Evaluatable_uncachedValue N env (theta s))),
   number (N (Evaluatable_uncachedValue N env (phi s))),
   radiusOutput N (Evaluatable_uncachedValue N env (radius s))).

Definition SphericalEvaluator_cachesAgree (N : Node -> NumberNode)
    (s : SphericalEvaluator) : Prop :=
  (SphericalEvaluator_isConstant s = true ->
   forall v, sphericalLastValue s = Some v ->
             forall env, v = SphericalEvaluator_uncachedValue N env s) /\
  Evaluatable_cachesAgree N (theta s) /\
  Evaluatable_cachesAgree N (phi s) /\
  Evaluatable_cachesAgree N (radius s).

(** An operator applied to two unitless numbers; an unsupported symbol
    gives 0. *)
Definition applyArithmetic (o : OperatorNode) (a b : float) : float :=
  match arithmetic (operator_value o) with
  | Some f => f a b
  | None => 0%float
  end.

(** The arithmetic of the two-level grammar on numbers: the products
    first, each from the left, then the sums from the left. *)
Fixpoint productsValue (current : float) (rest : list (OperatorNode * float))
  : float * list (OperatorNode * float) :=
  match rest with
  | [] => (current, [])
  | (o, x) :: rest =>
      if IS_MULTIPLICATION_RE_test (operator_value o) then
        productsValue (applyArithmetic o current x) rest
      else
        let '(first, more) := productsValue x rest in
        (current, (o, first) :: more)
  end.

Definition sumsValue (first : float) (rest : list (OperatorNode * float))
  : float :=
  fold_left (fun acc '(o, x) => applyArithmetic o acc x) rest first.

Definition calcValue (first : float) (rest : list (OperatorNode * float))
  : float :=
  sumsValue (fst (productsValue first rest)) (snd (productsValue first rest)).

Definition numberOperand (x : float) : Operand :=
  (TNumber (unitless x), literal x).

Definition numberOperands (rest : list (OperatorNode * float))
  : list (OperatorNode * Operand) :=
  map (fun '(o, x) => (o, numberOperand x)) rest.

(** An entry left by the first loop and a number agree: the operators are
    the same and the entry evaluates to the unitless number. *)
Definition agrees (N : Node -> NumberNode) (env : Environment)
    (entry : OperatorNode * Evaluatable) (value : OperatorNode * float) : Prop :=
  fst entry = fst value /\
  Evaluatable_uncachedValue N env (snd entry) = Number (unitless (snd value)).

(** The call [calc(1 + 2*2.5 - -2/-1)]. *)
Definition complexCall : ExpressionTerm :=
  functionNode "calc" [expressionNode complexTerms].

(** The third term the constructor destructures, with its default. *)
Definition radiusTermOf (expressions : list ExpressionNode) : ExpressionTerm :=
  match nth_error (firstTerms expressions) 2 with
  | Some t => t
  | None => TIdent AUTO
  end.

(** The operator node that sits, alone, at the bottom of a chain of
    [calc()] evaluators. *)
Fixpoint bareOperator (e : Evaluator) : option OperatorNode :=
  match e with
  | CalcEvaluator (Some x) _ => Evaluatable_bareOperator x
  | _ => None
  end
with Evaluatable_bareOperator (x : Evaluatable) : option OperatorNode :=
  match x with
  | Plain (Operator o) => Some o
  | Plain _ => None
  | Computed e => bareOperator e
  end.

(** What evaluation without caches yields: the bare operator node if there
    is one, and a number node otherwise. *)
Definition yieldsNumberOrBareOperator (x : Evaluatable) : Prop :=
  (forall i, x <> Plain (Ident i)) /\
  forall N env,
    match Evaluatable_bareOperator x with
    | Some o => Evaluatable_uncachedValue N env x = Operator o
    | None => exists n, Evaluatable_uncachedValue N env x = Number n
    end.


(** *** Instances *)

(** [1 + 1], newly built. *)
Definition plusOne : Evaluator :=
  OperatorEvaluator (operatorNode "+") (literal 1) (literal 1) None.

(* ================================================================== *)
(** * Properties *)

(** Induction over an evaluator and its operands together; the inner
    evaluator of a [CalcEvaluator] sits under an [option]. *)
Section EvaluatorInduction.

Variable P : Evaluator -> Prop.
Variable Q : Evaluatable -> Prop.
Hypothesis P_env : forall ident last, P (EnvEvaluator ident last).
Hypothesis P_calc_unset : forall last, P (CalcEvaluator None last).
Hypothesis P_calc : forall x last, Q x -> P (CalcEvaluator (Some x) last).
Hypothesis P_operator :
  forall o l r last, Q l -> Q r -> P (OperatorEvaluator o l r last).
Hypothesis Q_plain : forall node, Q (Plain node).
Hypothesis Q_computed : forall e, P e -> Q (Computed e).

Fixpoint Evaluator_both_ind (e : Evaluator) : P e :=
  match e with
  | EnvEvaluator ident last => P_env ident last
  | CalcEvaluator None last => P_calc_unset last
  | CalcEvaluator (Some x) last => P_calc x last (Evaluatable_both_ind x)
  | OperatorEvaluator o l r last =>
      P_operator o l r last (Evaluatable_both_ind l) (Evaluatable_both_ind r)
  end
with Evaluatable_both_ind (x : Evaluatable) : Q x :=
  match x with
  | Plain node => Q_plain node
  | Computed e => Q_computed e (Evaluator_both_ind e)
  end.

Lemma Evaluator_Evaluatable_ind :
  (forall e, P e) /\ (forall x, Q x).
Proof. split; [exact Evaluator_both_ind | exact Evaluatable_both_ind]. Qed.

End EvaluatorInduction.

(** ** The shared [evaluate] method *)

Lemma method_uncached {Self T : Type} (c : bool) (this : Self)
    (step : T * Self * nat) (store : Self -> T -> Self) :
  Evaluator_evaluate_method c None this step store = stored store step.
Proof. reflexivity. Qed.

Lemma method_dynamic {Self T : Type} (l : option T) (this : Self)
    (step : T * Self * nat) (store : Self -> T -> Self) :
  Evaluator_evaluate_method false l this step store = stored store step.
Proof. destruct l; reflexivity. Qed.

Lemma method_cached {Self T : Type} (v : T) (this : Self)
    (step : T * Self * nat) (store : Self -> T -> Self) :
  Evaluator_evaluate_method true (Some v) this step store = (v, this, 0).
Proof. reflexivity. Qed.

(** [evaluate] is the shared method around the subclass's [$evaluate]. *)
Lemma evaluate_unfold (N : Node -> NumberNode) (env : Environment)
    (this : Evaluator) :
  evaluate N env this =
  Evaluator_evaluate_method (isConstant this) (lastValue this) this
    (evaluate_step N env this) setLastValue.
Proof. destruct this as [i l | [x|] l | o x y l]; reflexivity. Qed.

Lemma stored_value {Self T : Type} (store : Self -> T -> Self)
    (step : T * Self * nat) :
  valueOf (stored store step) = valueOf step.
Proof. destruct step as [[v s] k]; reflexivity. Qed.

Lemma stored_steps {Self T : Type} (store : Self -> T -> Self)
    (step : T * Self * nat) :
  stepsOf (stored store step) = S (stepsOf step).
Proof. destruct step as [[v s] k]; reflexivity. Qed.

Lemma stored_object {Self T : Type} (store : Self -> T -> Self)
    (step : T * Self * nat) :
  objectOf (stored store step) = store (objectOf step) (valueOf step).
Proof. destruct step as [[v s] k]; reflexivity. Qed.

Lemma isConstant_setLastValue (e : Evaluator) (v : Node) :
  isConstant (setLastValue e v) = isConstant e.
Proof. destruct e; reflexivity. Qed.

Lemma lastValue_setLastValue (e : Evaluator) (v : Node) :
  lastValue (setLastValue e v) = Some v.
Proof. destruct e; reflexivity. Qed.

Lemma setLastValue_idem (e : Evaluator) (v : Node) :
  lastValue e = Some v -> setLastValue e v = e.
Proof. destruct e; simpl; intros ->; reflexivity. Qed.

(** ** Evaluation only fills caches *)

Lemma isConstant_structure :
  (forall e, isConstant (structure e) = isConstant e) /\
  (forall x, Evaluator_isConstant (Evaluatable_structure x) = Evaluator_isConstant x).
Proof.
  apply Evaluator_Evaluatable_ind; simpl; intros; try reflexivity;
    try assumption.
  now rewrite H, H0.
Qed.

Lemma structure_setLastValue (e : Evaluator) (v : Node) :
  structure (setLastValue e v) = structure e.
Proof. destruct e as [i l | [x|] l | o x y l]; reflexivity. Qed.

Ltac split_outcome :=
  match goal with
  | |- context [Evaluator_evaluate ?N ?env ?x] =>
      let v := fresh "v" in
      let x' := fresh "x'" in
      let k := fresh "k" in
      let E := fresh "E" in
      destruct (Evaluator_evaluate N env x) as [[v x'] k] eqn:E
  | H : context [Evaluator_evaluate ?N ?env ?x] |- _ =>
      let v := fresh "v" in
      let x' := fresh "x'" in
      let k := fresh "k" in
      let E := fresh "E" in
      destruct (Evaluator_evaluate N env x) as [[v x'] k] eqn:E
  end.

Lemma evaluate_structure (N : Node -> NumberNode) (env : Environment) :
  (forall e, structure (objectOf (evaluate N env e)) = structure e) /\
  (forall x, Evaluatable_structure (objectOf (Evaluator_evaluate N env x))
             = Evaluatable_structure x).
Proof.
  apply Evaluator_Evaluatable_ind.
  - intros ident last. rewrite evaluate_unfold. simpl.
    rewrite method_dynamic. reflexivity.
  - intros last. rewrite evaluate_unfold. simpl.
    destruct last; reflexivity.
  - intros x last IH. rewrite evaluate_unfold. simpl.
    split_outcome. unfold objectOf in IH. simpl in IH.
    destruct last as [c|]; [destruct (Evaluator_isConstant x)|];
      simpl; unfold objectOf; simpl; now rewrite ?IH.
  - intros o l r last IHl IHr. rewrite evaluate_unfold. simpl.
    do 2 split_outcome. unfold objectOf in IHl, IHr. simpl in IHl, IHr.
    destruct last as [c|];
      [destruct (Evaluator_isConstant l && Evaluator_isConstant r)|];
      simpl; unfold objectOf; simpl; now rewrite ?IHl, ?IHr.
  - reflexivity.
  - intros e IH. simpl. destruct (evaluate N env e) as [[v e'] k].
    unfold objectOf in *. simpl in *. now rewrite IH.
Qed.

Lemma evaluate_isConstant (N : Node -> NumberNode) (env : Environment)
    (e : Evaluator) :
  isConstant (objectOf (evaluate N env e)) = isConstant e.
Proof.
  rewrite <- (proj1 isConstant_structure (objectOf _)).
  rewrite (proj1 (evaluate_structure N env)).
  apply isConstant_structure.
Qed.

Lemma Evaluator_evaluate_isConstant (N : Node -> NumberNode)
    (env : Environment) (x : Evaluatable) :
  Evaluator_isConstant (objectOf (Evaluator_evaluate N env x))
  = Evaluator_isConstant x.
Proof.
  rewrite <- (proj2 isConstant_structure (objectOf _)).
  rewrite (proj2 (evaluate_structure N env)).
  apply isConstant_structure.
Qed.

Lemma SphericalEvaluator_evaluate_isConstant (N : Node -> NumberNode)
    (env : Environment) (s : SphericalEvaluator) :
  SphericalEvaluator_isConstant (objectOf (SphericalEvaluator_evaluate N env s))
  = SphericalEvaluator_isConstant s.
Proof.
  unfold SphericalEvaluator_evaluate, SphericalEvaluator_evaluate_step.
  pose proof (Evaluator_evaluate_isConstant N env (radius s)) as Hr.
  pose proof (Evaluator_evaluate_isConstant N env (theta s)) as Ht.
  pose proof (Evaluator_evaluate_isConstant N env (phi s)) as Hp.
  destruct (Evaluator_evaluate N env (radius s)) as [[rv r'] kr].
  destruct (Evaluator_evaluate N env (theta s)) as [[tv t'] kt].
  destruct (Evaluator_evaluate N env (phi s)) as [[pv p'] kp].
  unfold objectOf in *. simpl in *.
  destruct (sphericalLastValue s) as [c|];
    [destruct (SphericalEvaluator_isConstant s) eqn:Ec|];
    simpl; try assumption;
    unfold SphericalEvaluator_isConstant; simpl; now rewrite Hr, Ht, Hp.
Qed.

(** ** Caching (the base contract) *)

Lemma evaluate_first (N : Node -> NumberNode) (env : Environment)
    (this : Evaluator) :
  lastValue this = None ->
  evaluate N env this = stored setLastValue (evaluate_step N env this).
Proof.
  intros H. rewrite evaluate_unfold, H. apply method_uncached.
Qed.

Lemma evaluate_dynamic (N : Node -> NumberNode) (env : Environment)
    (this : Evaluator) :
  isConstant this = false ->
  evaluate N env this = stored setLastValue (evaluate_step N env this).
Proof.
  intros H. rewrite evaluate_unfold, H. apply method_dynamic.
Qed.

Lemma evaluate_cached (N : Node -> NumberNode) (env : Environment)
    (this : Evaluator) (v : Node) :
  isConstant this = true -> lastValue this = Some v ->
  evaluate N env this = (v, this, 0).
Proof.
  intros Hc Hl. rewrite evaluate_unfold, Hc, Hl. apply method_cached.
Qed.

Lemma evaluate_each_cached (N : Node -> NumberNode) (this : Evaluator)
    (v : Node) :
  isConstant this = true -> lastValue this = Some v ->
  forall envs,
    Forall (fun r => r = (v, this, 0)) (evaluate_each N envs this).
Proof.
  intros Hc Hl envs. induction envs as [|env envs IH]; simpl.
  - constructor.
  - rewrite (evaluate_cached N env this v Hc Hl). constructor; [reflexivity|].
    exact IH.
Qed.

Lemma evaluate_each_dynamic (N : Node -> NumberNode) (envs : list Environment) :
  forall this, isConstant this = false -> each_call_recomputes N envs this.
Proof.
  induction envs as [|env envs IH]; simpl; intros this H; [exact I|].
  split; [now apply evaluate_dynamic|].
  apply IH. now rewrite evaluate_isConstant.
Qed.

Lemma lastValue_after_step (N : Node -> NumberNode) (env : Environment)
    (this : Evaluator) :
  let r := stored setLastValue (evaluate_step N env this) in
  lastValue (objectOf r) = Some (valueOf r).
Proof.
  simpl. rewrite stored_object, stored_value. apply lastValue_setLastValue.
Qed.

Lemma SphericalEvaluator_each_cached (N : Node -> NumberNode)
    (this : SphericalEvaluator) (v : SphericalStyle) :
  SphericalEvaluator_isConstant this = true ->
  sphericalLastValue this = Some v ->
  forall envs,
    Forall (fun r => r = (v, this, 0))
      (SphericalEvaluator_evaluate_each N envs this).
Proof.
  intros Hc Hl envs. induction envs as [|env envs IH]; simpl.
  - constructor.
  - unfold SphericalEvaluator_evaluate at 1 2. rewrite Hc, Hl, method_cached.
    constructor; [reflexivity|]. exact IH.
Qed.

Lemma SphericalEvaluator_each_dynamic (N : Node -> NumberNode)
    (envs : list Environment) :
  forall this, SphericalEvaluator_isConstant this = false ->
               SphericalEvaluator_each_call_recomputes N envs this.
Proof.
  induction envs as [|env envs IH]; simpl; intros this H; [exact I|].
  split.
  - unfold SphericalEvaluator_evaluate. rewrite H. apply method_dynamic.
  - apply IH. now rewrite SphericalEvaluator_evaluate_isConstant.
Qed.

(** C2.  An evaluator whose [isConstant] is true and whose cache is still
    empty runs its own evaluation step on the first call of [evaluate()],
    and every later call returns that same value without running any step
    and without changing the object; an evaluator whose [isConstant] is
    false runs its own evaluation step on every call, whatever its cache
    holds.  This holds for the number evaluators and for the spherical
    evaluator. *)
Theorem evaluate_caching (N : Node -> NumberNode) :
  (forall this : Evaluator,
      (isConstant this = true -> lastValue this = None ->
       forall env envs,
         let first := evaluate N env this in
         first = stored setLastValue (evaluate_step N env this) /\
         Forall (fun r => r = (valueOf first, objectOf first, 0))
           (evaluate_each N envs (objectOf first))) /\
      (isConstant this = false ->
       forall envs, each_call_recomputes N envs this)) /\
  (forall this : SphericalEvaluator,
      (SphericalEvaluator_isConstant this = true ->
       sphericalLastValue this = None ->
       forall env envs,
         let first := SphericalEvaluator_evaluate N env this in
         first = stored SphericalEvaluator_setLastValue
                   (SphericalEvaluator_evaluate_step N env this) /\
         Forall (fun r => r = (valueOf first, objectOf first, 0))
           (SphericalEvaluator_evaluate_each N envs (objectOf first))) /\
      (SphericalEvaluator_isConstant this = false ->
       forall envs, SphericalEvaluator_each_call_recomputes N envs this)).
Proof.
  split; intros this; split.
  - intros Hc Hl env envs first.
    assert (Hfirst : first = stored setLastValue (evaluate_step N env this))
      by (apply evaluate_first; exact Hl).
    split; [exact Hfirst|].
    apply evaluate_each_cached.
    + unfold first. now rewrite evaluate_isConstant.
    + rewrite Hfirst. apply lastValue_after_step.
  - intros Hc envs. now apply evaluate_each_dynamic.
  - intros Hc Hl env envs first.
    assert (Hfirst : first = stored SphericalEvaluator_setLastValue
                               (SphericalEvaluator_evaluate_step N env this)).
    { unfold first, SphericalEvaluator_evaluate. rewrite Hl.
      apply method_uncached. }
    split; [exact Hfirst|].
    apply SphericalEvaluator_each_cached.
    + unfold first. now rewrite SphericalEvaluator_evaluate_isConstant.
    + rewrite Hfirst, stored_object, stored_value. reflexivity.
  - intros Hc envs. now apply SphericalEvaluator_each_dynamic.
Qed.

(** ** Caches do not change values *)

Lemma uncachedValue_structure (N : Node -> NumberNode) (env : Environment) :
  (forall e, uncachedValue N env (structure e) = uncachedValue N env e) /\
  (forall x, Evaluatable_uncachedValue N env (Evaluatable_structure x)
             = Evaluatable_uncachedValue N env x).
Proof.
  apply Evaluator_Evaluatable_ind; simpl; intros; try reflexivity;
    try assumption.
  now rewrite H, H0.
Qed.

Lemma uncachedValue_after (N : Node -> NumberNode) (env env' : Environment)
    (x : Evaluatable) :
  Evaluatable_uncachedValue N env (objectOf (Evaluator_evaluate N env' x)) =
  Evaluatable_uncachedValue N env x.
Proof.
  rewrite <- (proj2 (uncachedValue_structure N env) (objectOf _)).
  rewrite (proj2 (evaluate_structure N env')).
  apply uncachedValue_structure.
Qed.

Lemma uncachedValue_constant (N : Node -> NumberNode) (env env' : Environment) :
  (forall e, isConstant e = true ->
             uncachedValue N env e = uncachedValue N env' e) /\
  (forall x, Evaluator_isConstant x = true ->
             Evaluatable_uncachedValue N env x = Evaluatable_uncachedValue N env' x).
Proof.
  apply Evaluator_Evaluatable_ind; simpl; intros; try reflexivity;
    try discriminate; auto.
  apply andb_true_iff in H1 as [Hl Hr]. now rewrite (H Hl), (H0 Hr).
Qed.

Lemma cachesAgree_structure (N : Node -> NumberNode) :
  (forall e, cachesAgree N (structure e)) /\
  (forall x, Evaluatable_cachesAgree N (Evaluatable_structure x)).
Proof.
  apply Evaluator_Evaluatable_ind; simpl; intros; repeat split; auto;
    intros; discriminate.
Qed.

Lemma cachesAgree_unfold (N : Node -> NumberNode) (e : Evaluator) :
  cachesAgree N e <->
  (isConstant e = true ->
   forall v, lastValue e = Some v -> forall env, v = uncachedValue N env e) /\
  childrenAgree N e.
Proof. destruct e as [i l | [x|] l | o x y l]; reflexivity. Qed.

Lemma uncachedValue_setLastValue (N : Node -> NumberNode) (env : Environment)
    (e : Evaluator) (v : Node) :
  uncachedValue N env (setLastValue e v) = uncachedValue N env e.
Proof. destruct e as [i l | [x|] l | o x y l]; reflexivity. Qed.

Lemma childrenAgree_setLastValue (N : Node -> NumberNode) (e : Evaluator)
    (v : Node) :
  childrenAgree N (setLastValue e v) <-> childrenAgree N e.
Proof. destruct e as [i l | [x|] l | o x y l]; reflexivity. Qed.

(** The shared method keeps the agreement, given a step that computes the
    uncached value, keeps its children in agreement and the structure of
    the object. *)
Lemma method_uncachedValue (N : Node -> NumberNode) (env : Environment)
    (e : Evaluator) :
  cachesAgree N e ->
  valueOf (evaluate_step N env e) = uncachedValue N env e ->
  childrenAgree N (objectOf (evaluate_step N env e)) ->
  structure (objectOf (evaluate_step N env e)) = structure e ->
  valueOf (evaluate N env e) = uncachedValue N env e /\
  cachesAgree N (objectOf (evaluate N env e)).
Proof.
  intros He Hv Hc Hs. rewrite evaluate_unfold.
  assert (Hstored :
            valueOf (stored setLastValue (evaluate_step N env e))
            = uncachedValue N env e /\
            cachesAgree N (objectOf (stored setLastValue (evaluate_step N env e)))).
  { rewrite stored_value, stored_object. split; [exact Hv|].
    apply cachesAgree_unfold. split.
    - rewrite isConstant_setLastValue, lastValue_setLastValue.
      intros Hconst v Hlast env2. inversion Hlast; subst v.
      rewrite uncachedValue_setLastValue.
      rewrite <- (proj1 (uncachedValue_structure N env2) (objectOf _)), Hs.
      rewrite (proj1 (uncachedValue_structure N env2)).
      rewrite Hv. apply uncachedValue_constant.
      rewrite <- (proj1 isConstant_structure e), <- Hs.
      rewrite (proj1 isConstant_structure). exact Hconst.
    - now apply childrenAgree_setLastValue. }
  destruct (lastValue e) as [v|] eqn:El; [|exact Hstored].
  destruct (isConstant e) eqn:Ec; [|rewrite method_dynamic; exact Hstored].
  rewrite method_cached. unfold valueOf, objectOf. simpl. split; [|exact He].
  apply cachesAgree_unfold in He. destruct He as [Hcache _].
  now apply Hcache.
Qed.

(** Evaluation returns the uncached value and keeps the caches in
    agreement. *)
Lemma evaluate_uncachedValue (N : Node -> NumberNode) (env : Environment) :
  (forall e, cachesAgree N e ->
             valueOf (evaluate N env e) = uncachedValue N env e /\
             cachesAgree N (objectOf (evaluate N env e))) /\
  (forall x, Evaluatable_cachesAgree N x ->
             valueOf (Evaluator_evaluate N env x) = Evaluatable_uncachedValue N env x /\
             Evaluatable_cachesAgree N (objectOf (Evaluator_evaluate N env x))).
Proof.
  apply Evaluator_Evaluatable_ind.
  - intros ident last H. apply method_uncachedValue; try reflexivity; auto.
  - intros last H. apply method_uncachedValue; try reflexivity; auto.
  - intros x last IH H. apply method_uncachedValue; [exact H| | |].
    + destruct H as [_ Hx]. destruct (IH Hx) as [Hv _]. simpl.
      destruct (Evaluator_evaluate N env x) as [[v x'] k]. exact Hv.
    + destruct H as [_ Hx]. destruct (IH Hx) as [_ Hx']. simpl.
      destruct (Evaluator_evaluate N env x) as [[v x'] k]. exact Hx'.
    + pose proof (proj2 (evaluate_structure N env) x) as Hs. simpl.
      destruct (Evaluator_evaluate N env x) as [[v x'] k].
      unfold objectOf in *. simpl in *. now rewrite Hs.
  - intros o l r last IHl IHr H. apply method_uncachedValue; [exact H| | |].
    + destruct H as [_ [Hl Hr]].
      destruct (IHl Hl) as [Hvl _]. destruct (IHr Hr) as [Hvr _]. simpl.
      destruct (Evaluator_evaluate N env l) as [[lv l'] kl].
      destruct (Evaluator_evaluate N env r) as [[rv r'] kr].
      unfold valueOf in *. simpl in *. now rewrite Hvl, Hvr.
    + destruct H as [_ [Hl Hr]].
      destruct (IHl Hl) as [_ Hl']. destruct (IHr Hr) as [_ Hr']. simpl.
      destruct (Evaluator_evaluate N env l) as [[lv l'] kl].
      destruct (Evaluator_evaluate N env r) as [[rv r'] kr].
      now split.
    + pose proof (proj2 (evaluate_structure N env) l) as Hl.
      pose proof (proj2 (evaluate_structure N env) r) as Hr. simpl.
      destruct (Evaluator_evaluate N env l) as [[lv l'] kl].
      destruct (Evaluator_evaluate N env r) as [[rv r'] kr].
      unfold objectOf in *. simpl in *. now rewrite Hl, Hr.
  - intros node _. simpl. split; [reflexivity|exact I].
  - intros e IH H. simpl in *. destruct (IH H) as [Hv He].
    destruct (evaluate N env e) as [[v e'] k]. unfold valueOf, objectOf in *.
    simpl in *. now split.
Qed.

(** However often and in whatever environments an evaluator has been
    evaluated since it was built, a call of [evaluate()] returns what a
    newly built copy computes in the environment of the call. *)
Lemma evaluate_each_uncachedValue (N : Node -> NumberNode)
    (envs : list Environment) :
  forall e, cachesAgree N e ->
    map valueOf (evaluate_each N envs e) =
    map (fun env => uncachedValue N env e) envs.
Proof.
  induction envs as [|env envs IH]; intros e He; [reflexivity|].
  cbn [evaluate_each map].
  destruct (proj1 (evaluate_uncachedValue N env) e He) as [Hv He'].
  rewrite Hv, (IH _ He'). f_equal.
  apply map_ext. intros env2.
  rewrite <- (proj1 (uncachedValue_structure N env2) (objectOf _)).
  rewrite (proj1 (evaluate_structure N env)).
  apply uncachedValue_structure.
Qed.

(** ** Constancy *)

Lemma reachesEnv_inner (e : Evaluator) (last : option Node) :
  reachesEnv e -> reachesEnv (CalcEvaluator (Some (Computed e)) last).
Proof.
  intros (ident & l & H). exists ident, l.
  eapply reachable_below; [apply child_inner | exact H].
Qed.

Lemma reachesEnv_left (o : OperatorNode) (e : Evaluator) (r : Evaluatable)
    (last : option Node) :
  reachesEnv e -> reachesEnv (OperatorEvaluator o (Computed e) r last).
Proof.
  intros (ident & l & H). exists ident, l.
  eapply reachable_below; [apply child_left | exact H].
Qed.

Lemma reachesEnv_right (o : OperatorNode) (x : Evaluatable) (e : Evaluator)
    (last : option Node) :
  reachesEnv e -> reachesEnv (OperatorEvaluator o x (Computed e) last).
Proof.
  intros (ident & l & H). exists ident, l.
  eapply reachable_below; [apply child_right | exact H].
Qed.

Lemma reachable_trans (a b c : Evaluator) :
  reachable a b -> reachable b c -> reachable a c.
Proof.
  induction 1 as [|a x b Hax Hxb IH]; intros Hbc; [exact Hbc|].
  eapply reachable_below; [exact Hax | apply IH, Hbc].
Qed.

(** An evaluator is dynamic exactly when an [EnvEvaluator] is within its
    reach; likewise for what sits in an operand slot. *)
Lemma dynamic_iff_reachesEnv :
  (forall e, isConstant e = false <-> reachesEnv e) /\
  (forall x, Evaluator_isConstant x = false <-> Evaluatable_reachesEnv x).
Proof.
  apply Evaluator_Evaluatable_ind.
  - intros ident last. simpl. split; [|reflexivity].
    intros _. exists ident, last. constructor.
  - intros last. simpl. split; [discriminate|].
    intros (ident & l & H). inversion H as [|? c ? Hc]; subst.
    inversion Hc.
  - intros x last IH. simpl. rewrite IH. split.
    + destruct x as [node|e]; simpl; [tauto|]. apply reachesEnv_inner.
    + intros (ident & l & H). inversion H as [|? c ? Hc Hr]; subst.
      inversion Hc; subst. simpl. now exists ident, l.
  - intros o l r last IHl IHr. simpl. rewrite andb_false_iff, IHl, IHr.
    split.
    + intros [H|H].
      * destruct l as [node|e]; simpl in H; [tauto|]. now apply reachesEnv_left.
      * destruct r as [node|e]; simpl in H; [tauto|]. now apply reachesEnv_right.
    + intros (ident & c & H). inversion H as [|? d ? Hc Hr]; subst.
      inversion Hc; subst; [left|right]; simpl; now exists ident, c.
  - intros node. simpl. split; [discriminate|tauto].
  - intros e IH. simpl. exact IH.
Qed.

Lemma constant_iff_no_env (e : Evaluator) :
  isConstant e = true <-> ~ reachesEnv e.
Proof.
  rewrite <- (proj1 dynamic_iff_reachesEnv e).
  destruct (isConstant e); split; congruence.
Qed.

Lemma Evaluatable_constant_iff_no_env (x : Evaluatable) :
  Evaluator_isConstant x = true <-> ~ Evaluatable_reachesEnv x.
Proof.
  rewrite <- (proj2 dynamic_iff_reachesEnv x).
  destruct (Evaluator_isConstant x); split; congruence.
Qed.

Lemma evaluatableFor_calc (arguments : list ExpressionNode) :
  evaluatableFor (functionNode "calc" arguments) =
  (e <- new_CalcEvaluator evaluatableFor arguments ;; Normal (Computed e)).
Proof. reflexivity. Qed.

(** [calc(a o f(...))] for an additive operator [o] and a call that yields
    an evaluator. *)
Lemma new_CalcEvaluator_binary (a : NumberNode) (o : OperatorNode)
    (name : IdentNode) (arguments : list ExpressionNode) (e : Evaluator) :
  IS_MULTIPLICATION_RE_test (operator_value o) = false ->
  evaluatableFor (TFunction name arguments) = Normal (Computed e) ->
  new_CalcEvaluator evaluatableFor
    [expressionNode [TNumber a; TOperator o; TFunction name arguments]] =
  Normal (CalcEvaluator
            (Some (Computed (OperatorEvaluator o (Plain (Number a))
                               (Computed e) None)))
            None).
Proof.
  intros Ho He.
  unfold new_CalcEvaluator, terms.
  cbn -[evaluatableFor IS_MULTIPLICATION_RE_test].
  rewrite Ho. cbn -[evaluatableFor]. rewrite He. reflexivity.
Qed.

Lemma nestedEnv_dynamic (depth : nat) :
  exists e, evaluatableFor (nestedEnv depth) = Normal (Computed e) /\
            isConstant e = false.
Proof.
  induction depth as [|depth (e & He & Hc)].
  - eexists. split; reflexivity.
  - assert (Hf : exists name arguments, nestedEnv depth = TFunction name arguments)
      by (destruct depth; do 2 eexists; reflexivity).
    destruct Hf as (name & arguments & Hf).
    eexists. split.
    + change (nestedEnv (S depth)) with
        (functionNode "calc"
           [expressionNode [TNumber (numberNode 1 None);
                            TOperator (operatorNode "+");
                            nestedEnv depth]]).
      rewrite evaluatableFor_calc. rewrite Hf in *.
      rewrite (new_CalcEvaluator_binary _ (operatorNode "+") _ _ e eq_refl He).
      reflexivity.
    + simpl. exact Hc.
Qed.

(** C4.  [isConstant] is true exactly when no [EnvEvaluator] is reachable
    in the evaluator tree: an [EnvEvaluator] is never constant, an
    [OperatorEvaluator] and a [SphericalEvaluator] are constant when all
    their operands are, a literal is constant, a [CalcEvaluator] is constant
    when it has no inner tree or its inner tree is constant; hence an
    [EnvEvaluator] at any depth of the tree makes the whole tree dynamic,
    and [calc(1 + calc(1 + ... env(window-scroll-y)))] is dynamic at every
    depth of nesting.  Evaluation does not change [isConstant]. *)
Theorem isConstant_iff_no_env_reachable :
  (forall e, isConstant e = true <-> ~ reachesEnv e) /\
  (forall ident last, isConstant (EnvEvaluator ident last) = false) /\
  (forall o l r last,
      isConstant (OperatorEvaluator o l r last) =
      Evaluator_isConstant l && Evaluator_isConstant r) /\
  (forall s,
      SphericalEvaluator_isConstant s =
      Evaluator_isConstant (theta s) && Evaluator_isConstant (phi s)
      && Evaluator_isConstant (radius s)) /\
  (forall s,
      SphericalEvaluator_isConstant s = true <->
      ~ (Evaluatable_reachesEnv (theta s) \/ Evaluatable_reachesEnv (phi s)
         \/ Evaluatable_reachesEnv (radius s))) /\
  (forall node, Evaluator_isConstant (Plain node) = true) /\
  (forall inner last,
      isConstant (CalcEvaluator inner last) = true <->
      inner = None \/
      exists x, inner = Some x /\ Evaluator_isConstant x = true) /\
  (forall e ident last,
      reachable e (EnvEvaluator ident last) -> isConstant e = false) /\
  (forall depth, exists e,
      evaluatableFor (nestedEnv depth) = Normal (Computed e) /\
      isConstant e = false) /\
  (forall N env e, isConstant (objectOf (evaluate N env e)) = isConstant e).
Proof.
  split; [exact constant_iff_no_env|].
  split; [reflexivity|].
  split; [reflexivity|].
  split; [reflexivity|].
  split.
  { intros s. unfold SphericalEvaluator_isConstant. rewrite !andb_true_iff.
    rewrite !Evaluatable_constant_iff_no_env. tauto. }
  split; [reflexivity|].
  split.
  { intros inner last. split.
    - destruct inner as [x|]; simpl; intros H; [right; now exists x | now left].
    - intros [->|(x & -> & H)]; [reflexivity | exact H]. }
  split.
  { intros e ident last H. apply dynamic_iff_reachesEnv. now exists ident, last. }
  split; [exact nestedEnv_dynamic|].
  exact evaluate_isConstant.
Qed.

(** ** The dispatch [evaluatableFor] *)

Lemma evaluatableFor_number (n : NumberNode) :
  evaluatableFor (TNumber n) = Normal (Plain (Number n)).
Proof. reflexivity. Qed.

Lemma evaluatableFor_unknown (name : IdentNode)
    (arguments : list ExpressionNode) :
  ident_value name <> "calc" -> ident_value name <> "env" ->
  evaluatableFor (TFunction name arguments) = Normal (Plain (Number ZERO)).
Proof.
  intros Hc He. simpl.
  destruct (String.eqb_spec (ident_value name) "calc"); [contradiction|].
  destruct (String.eqb_spec (ident_value name) "env"); [contradiction|].
  reflexivity.
Qed.

Lemma evaluatableFor_env (arguments : list ExpressionNode) :
  evaluatableFor (functionNode "env" arguments) =
  Normal (Computed (new_EnvEvaluator arguments)).
Proof. reflexivity. Qed.

(** The two kinds of argument agree: a node that is not a function call is
    treated alike as a term and as an entry of [secondOrderTerms]. *)
Lemma evaluatableForEntry_term (t : ExpressionTerm) (node : Node) :
  nodeOfTerm t = Some node ->
  evaluatableForEntry (Plain node) = evaluatableFor t.
Proof.
  destruct t; simpl; intros H; inversion H; reflexivity.
Qed.

(** C1 fails on the code.  [Evaluator.evaluatableFor] throws on every
    [IdentNode] and on every [OperatorNode]: neither has a [name], and the
    dispatch reads [name.value].  So constructing [calc(auto)],
    [calc(1 * +)] or the spherical evaluator of [auto auto auto] throws
    too.  (Numbers are returned as they are, and a function of an unknown
    name gives the zero sentinel.) *)
Theorem evaluatableFor_throws_on_ident_and_operator :
  (forall i, evaluatableFor (TIdent i) = Throw) /\
  (forall o, evaluatableFor (TOperator o) = Throw) /\
  evaluatableFor (TIdent (identNode "auto")) = Throw /\
  evaluatableFor
    (functionNode "calc" [expressionNode [TIdent (identNode "auto")]])
  = Throw /\
  evaluatableFor
    (functionNode "calc"
       [expressionNode [TNumber (numberNode 1 None);
                        TOperator (operatorNode "*");
                        TOperator (operatorNode "+")]])
  = Throw /\
  new_SphericalEvaluator
    [expressionNode [TIdent AUTO; TIdent AUTO; TIdent AUTO]] = Throw /\
  (forall n, evaluatableFor (TNumber n) = Normal (Plain (Number n))) /\
  (forall name arguments,
      ident_value name <> "calc" -> ident_value name <> "env" ->
      evaluatableFor (TFunction name arguments) = Normal (Plain (Number ZERO))).
Proof.
  repeat split; try reflexivity.
  apply evaluatableFor_unknown.
Qed.

(** ** Arrays *)

Lemma array_last_push {A : Type} (a : list A) (x : A) :
  array_last (array_push a x) = Some x.
Proof. unfold array_last, array_push. now rewrite rev_unit. Qed.

Lemma array_last_none {A : Type} (a : list A) :
  array_last a = None -> a = [].
Proof.
  unfold array_last. destruct (rev a) eqn:E; [|discriminate].
  intros _. apply (f_equal (@rev A)) in E. now rewrite rev_involutive in E.
Qed.

Lemma array_last_some {A : Type} (a : list A) (x : A) :
  array_last a = Some x -> a = removelast a ++ [x].
Proof.
  unfold array_last. destruct (rev a) as [|y ys] eqn:E; [discriminate|].
  intros H. inversion H; subst y.
  apply (f_equal (@rev A)) in E. rewrite rev_involutive in E. simpl in E.
  subst a. now rewrite removelast_last.
Qed.

Lemma array_last_removelast {A : Type} (a : list A) :
  2 <= length a -> exists x, array_last (removelast a) = Some x.
Proof.
  intros H. destruct (array_last (removelast a)) as [x|] eqn:E; [now exists x|].
  apply array_last_none in E.
  destruct (array_last a) as [y|] eqn:Ey.
  - apply array_last_some in Ey. rewrite E in Ey. rewrite Ey in H.
    simpl in H. lia.
  - apply array_last_none in Ey. subst a. simpl in H. lia.
Qed.

(** ** [calc()]: precedence and associativity *)

Lemma evaluatableForEntry_value (x : Evaluatable) :
  isValue x = true -> evaluatableForEntry x = Normal x.
Proof. destruct x as [[n|i|o]|e]; simpl; intros H; try discriminate; reflexivity. Qed.

Lemma evaluatableFor_value (t : ExpressionTerm) (x : Evaluatable) :
  evaluatableFor t = Normal x -> isValue x = true.
Proof.
  destruct t as [n|i|o|name arguments]; simpl; try discriminate.
  - intros H. inversion H. reflexivity.
  - destruct (ident_value name =? "calc").
    + destruct (new_CalcEvaluator evaluatableFor arguments); simpl;
        [|discriminate].
      intros H. inversion H. reflexivity.
    + destruct (ident_value name =? "env"); intros H; inversion H; reflexivity.
Qed.

Lemma array_pop_push {A : Type} (a : list A) (x : A) :
  array_pop (array_push a x) = (Some x, a).
Proof.
  unfold array_pop. rewrite array_last_push. unfold array_push.
  now rewrite removelast_last.
Qed.

Lemma collapseProducts_values (rest : list (OperatorNode * Operand)) :
  Forall (fun '(_, operand) => dispatched operand) rest ->
  forall current, isValue current = true ->
    isValue (fst (collapseProducts current rest)) = true /\
    Forall (fun '(_, x) => isValue x = true) (snd (collapseProducts current rest)).
Proof.
  induction 1 as [|[o operand] rest Hd Hrest IH]; intros current Hc; simpl.
  - split; [exact Hc|constructor].
  - destruct (IS_MULTIPLICATION_RE_test (operator_value o)).
    + apply IH. reflexivity.
    + destruct (IH (snd operand) (evaluatableFor_value _ _ Hd)) as [H1 H2].
      destruct (collapseProducts (snd operand) rest) as [first more].
      simpl in *. split; [exact Hc|]. constructor; assumption.
Qed.

Lemma multiplicativePass_alternating (rest : list (OperatorNode * Operand)) :
  Forall (fun '(_, operand) => dispatched operand) rest ->
  forall prefix current, isValue current = true ->
    multiplicativePass evaluatableFor (flattenTerms rest)
      (array_push prefix current) =
    Normal (Some (prefix ++
                  fst (collapseProducts current rest) ::
                  flattenEntries (snd (collapseProducts current rest)))).
Proof.
  induction 1 as [|[o [t x]] rest Hd Hrest IH]; intros prefix current Hc.
  - reflexivity.
  - unfold dispatched in Hd. cbn [fst snd] in Hd.
    cbn [flattenTerms flat_map app fst snd].
    fold (flattenTerms rest).
    assert (Hfirst :
              multiplicativePass evaluatableFor
                (TOperator o :: t :: flattenTerms rest) (array_push prefix current) =
              multiplicativePass evaluatableFor (t :: flattenTerms rest)
                (array_push (array_push prefix current) (Plain (Operator o)))).
    { cbn [multiplicativePass]. rewrite array_last_push.
      destruct current as [[n|i|p]|e]; try discriminate Hc; reflexivity. }
    rewrite Hfirst. cbn [multiplicativePass]. rewrite array_last_push.
    cbn [collapseProducts snd].
    destruct (IS_MULTIPLICATION_RE_test (operator_value o)) eqn:Emul.
    + rewrite !array_pop_push.
      rewrite (evaluatableForEntry_value _ Hc). cbn [bind].
      rewrite Hd. cbn [bind].
      apply IH. reflexivity.
    + assert (Hpush : match t with
                      | TOperator p => Normal (Plain (Operator p))
                      | _ => evaluatableFor t
                      end = Normal x).
      { destruct t; try exact Hd. discriminate Hd. }
      rewrite Hpush. cbn [bind].
      rewrite (IH (array_push (array_push prefix current) (Plain (Operator o))) x
                 (evaluatableFor_value _ _ Hd)).
      destruct (collapseProducts x rest) as [first more]. cbn [fst snd].
      unfold array_push, flattenEntries. cbn [flat_map]. rewrite <- !app_assoc.
      reflexivity.
Qed.

Lemma additiveFold_alternating (rest : list (OperatorNode * Evaluatable)) :
  Forall (fun '(_, x) => isValue x = true) rest ->
  forall first, isValue first = true ->
    additiveFold first (flattenEntries rest) = Normal (Some [foldSums first rest]).
Proof.
  induction 1 as [|[o x] rest Hx Hrest IH]; intros first Hf.
  - reflexivity.
  - cbn [flattenEntries flat_map app]. fold (flattenEntries rest).
    cbn [additiveFold].
    rewrite (evaluatableForEntry_value _ Hf), (evaluatableForEntry_value _ Hx).
    cbn [bind]. apply IH. reflexivity.
Qed.

(** Over an alternating term list the constructor builds the tree of the
    two-level grammar: products first, each folded from the left, then the
    sums folded from the left. *)
Lemma new_CalcEvaluator_alternating (first : Operand)
    (rest : list (OperatorNode * Operand)) :
  dispatched first ->
  Forall (fun '(_, operand) => dispatched operand) rest ->
  new_CalcEvaluator evaluatableFor
    [expressionNode (fst first :: flattenTerms rest)] =
  Normal (CalcEvaluator
            (Some (foldSums (fst (collapseProducts (snd first) rest))
                            (snd (collapseProducts (snd first) rest))))
            None).
Proof.
  intros Hf Hrest. destruct first as [t x]. unfold dispatched in Hf.
  cbn [fst snd] in *.
  unfold new_CalcEvaluator, terms.
  cbn [multiplicativePass]. unfold array_last at 1. cbn [rev].
  assert (Hpush : match t with
                  | TOperator p => Normal (Plain (Operator p))
                  | _ => evaluatableFor t
                  end = Normal x).
  { destruct t; try exact Hf. discriminate Hf. }
  rewrite Hpush. cbn [bind].
  rewrite (multiplicativePass_alternating rest Hrest [] x
             (evaluatableFor_value _ _ Hf)).
  cbn [bind app].
  destruct (collapseProducts_values rest Hrest x (evaluatableFor_value _ _ Hf))
    as [H1 H2].
  unfold additivePass. rewrite (additiveFold_alternating _ H2 _ H1).
  reflexivity.
Qed.

(** C3.  For a normalizer that leaves unitless numbers as they are, the
    term list [1 + 2*2.5 - -2/-1] is reduced in two passes: the first
    collapses [2*2.5] and [-2/-1] and leaves [1 + _ - _]; the second folds
    what is left from the left, giving [(1 + 2*2.5) - (-2/-1)]; and the
    [CalcEvaluator] built from it evaluates to the number node (4, null).
    In general, over operands alternating with operators, every run joined
    by [*] or [/] is folded from the left first, and the runs are then
    folded from the left. *)
Theorem calc_complex_expression (N : Node -> NumberNode) (env : Environment) :
  (forall x, N (Number (unitless x)) = unitless x) ->
  multiplicativePass evaluatableFor complexTerms [] =
    Normal (Some [literal 1; Plain (Operator (operatorNode "+"));
                  operation "*" (literal 2) (literal 2.5);
                  Plain (Operator (operatorNode "-"));
                  operation "/" (literal (-2)) (literal (-1))]) /\
  new_CalcEvaluator evaluatableFor [expressionNode complexTerms] =
    Normal (CalcEvaluator (Some complexTree) None) /\
  valueOf (evaluate N env (CalcEvaluator (Some complexTree) None)) =
    Number (unitless 4) /\
  (forall first rest,
      dispatched first ->
      Forall (fun '(_, operand) => dispatched operand) rest ->
      new_CalcEvaluator evaluatableFor
        [expressionNode (fst first :: flattenTerms rest)] =
      Normal (CalcEvaluator
                (Some (foldSums (fst (collapseProducts (snd first) rest))
                                (snd (collapseProducts (snd first) rest))))
                None)).
Proof.
  intros HN. split; [reflexivity|]. split; [reflexivity|].
  split; [|exact new_CalcEvaluator_alternating].
  unfold valueOf, complexTree, operation, literal, unitless in *. cbn.
  rewrite !HN. cbn. rewrite !HN. cbn. rewrite !HN. reflexivity.
Qed.

(** ** [OperatorEvaluator] *)

Lemma evaluate_operator_uncached (N : Node -> NumberNode) (env : Environment)
    (o : OperatorNode) (l r : Evaluatable) :
  valueOf (evaluate N env (OperatorEvaluator o l r None)) =
  applyOperator o (N (valueOf (Evaluator_evaluate N env l)))
                  (N (valueOf (Evaluator_evaluate N env r))).
Proof.
  rewrite evaluate_first by reflexivity. rewrite stored_value. simpl.
  destruct (Evaluator_evaluate N env l) as [[lv l'] kl].
  destruct (Evaluator_evaluate N env r) as [[rv r'] kr].
  reflexivity.
Qed.

Lemma applyOperator_mismatched (o : OperatorNode) (leftNode rightNode : NumberNode)
    (a b : string) :
  unit leftNode = Some a -> unit rightNode = Some b -> a <> b ->
  applyOperator o leftNode rightNode = Number ZERO.
Proof.
  intros Ha Hb Hab. unfold applyOperator, mismatched. rewrite Ha, Hb.
  destruct (String.eqb_spec b a) as [->|_]; [contradiction|]. reflexivity.
Qed.

Lemma applyOperator_arithmetic (o : OperatorNode) (leftNode rightNode : NumberNode)
    (f : float -> float -> float) :
  arithmetic (operator_value o) = Some f ->
  mismatched (unit leftNode) (unit rightNode) = false ->
  applyOperator o leftNode rightNode =
  Number (numberNode (f (number leftNode) (number rightNode))
            (unit_or (unit leftNode) (unit rightNode))).
Proof.
  intros Hf Hm. unfold applyOperator, arithmetic in *. rewrite Hm.
  destruct (operator_value o =? "+"); [now inversion Hf|].
  destruct (operator_value o =? "-"); [now inversion Hf|].
  destruct (operator_value o =? "/"); [now inversion Hf|].
  destruct (operator_value o =? "*"); [now inversion Hf|].
  discriminate.
Qed.

Lemma applyOperator_unknown (o : OperatorNode) (leftNode rightNode : NumberNode) :
  arithmetic (operator_value o) = None ->
  applyOperator o leftNode rightNode = Number ZERO.
Proof.
  intros Hf. unfold applyOperator, arithmetic in *.
  destruct (mismatched _ _); [reflexivity|].
  destruct (operator_value o =? "+"); [discriminate|].
  destruct (operator_value o =? "-"); [discriminate|].
  destruct (operator_value o =? "/"); [discriminate|].
  destruct (operator_value o =? "*"); [discriminate|].
  reflexivity.
Qed.

(** The unit of a well-matched result is the unit that is present. *)
Lemma unit_or_present (leftUnit rightUnit : option string) (u : string) :
  mismatched leftUnit rightUnit = false -> u <> "" ->
  leftUnit = Some u \/ rightUnit = Some u ->
  leftUnit <> Some "" ->
  unit_or leftUnit rightUnit = Some u.
Proof.
  intros Hm Hu [->| ->] Hl; unfold unit_or.
  - destruct (String.eqb_spec u ""); [contradiction|reflexivity].
  - destruct leftUnit as [l|]; [|reflexivity].
    destruct (String.eqb_spec l "") as [->|_]; [congruence|].
    unfold mismatched in Hm.
    destruct (String.eqb_spec u l) as [E|_]; [now rewrite E|discriminate].
Qed.

(** C5.  Whatever the operator, when the normalized results of the two
    operands carry units that are both present and different, a newly
    built [OperatorEvaluator] evaluates to the zero sentinel (0, null). *)
Theorem operator_mismatched_units (N : Node -> NumberNode) (env : Environment)
    (o : OperatorNode) (l r : Evaluatable) (a b : string) :
  unit (N (valueOf (Evaluator_evaluate N env l))) = Some a ->
  unit (N (valueOf (Evaluator_evaluate N env r))) = Some b ->
  a <> b ->
  valueOf (evaluate N env (OperatorEvaluator o l r None)) = Number ZERO.
Proof.
  intros Ha Hb Hab. rewrite evaluate_operator_uncached.
  exact (applyOperator_mismatched o _ _ a b Ha Hb Hab).
Qed.

Lemma normalizeNumber_unit (n : NumberNode) :
  supportedUnit (unit n) -> unit (normalizeNumber n) = baseUnit (unit n).
Proof.
  unfold normalizeNumber.
  intros [H|[H|[H|[H|[H|H]]]]]; rewrite H; try reflexivity;
    destruct n as [x u]; simpl in *; now rewrite H.
Qed.

Lemma baseUnit_nonempty (u : option string) : baseUnit u <> Some "".
Proof.
  destruct u as [u|]; simpl; [|discriminate].
  destruct ((u =? "deg") || (u =? "rad")); discriminate.
Qed.

Lemma unit_or_presentUnit (leftUnit rightUnit : option string) :
  leftUnit <> Some "" -> unit_or leftUnit rightUnit = presentUnit leftUnit rightUnit.
Proof.
  intros H. destruct leftUnit as [l|]; simpl; [|reflexivity].
  destruct (String.eqb_spec l "") as [->|_]; [congruence|reflexivity].
Qed.

(** C6.  A newly built [OperatorEvaluator] applies its operator to the
    normalized results of its operands.  With the normalizer of the
    specification, operands in [deg] or [rad] are brought to [rad], operands
    in [cm], [mm] or [m] to [m], and unitless operands stay unitless; for
    one of the four operators and units that do not clash, the result is
    the operator applied to the two normalized numbers, its unit being the
    normalized unit that is present.  So (1, m) + (1000, mm) is (2, m) and
    (180, deg) + (pi, rad) is (2 pi, rad). *)
Theorem operator_normalizes_operands :
  (forall N env o l r,
      valueOf (evaluate N env (OperatorEvaluator o l r None)) =
      applyOperator o (N (valueOf (Evaluator_evaluate N env l)))
                      (N (valueOf (Evaluator_evaluate N env r)))) /\
  (forall o leftNode rightNode f u,
      arithmetic (operator_value o) = Some f ->
      mismatched (unit leftNode) (unit rightNode) = false ->
      u <> "" -> unit leftNode <> Some "" ->
      unit leftNode = Some u \/ unit rightNode = Some u ->
      applyOperator o leftNode rightNode =
      Number (numberNode (f (number leftNode) (number rightNode)) (Some u))) /\
  (forall n, supportedUnit (unit n) ->
             unit (normalizeUnit (Number n)) = baseUnit (unit n)) /\
  (forall x, normalizeUnit (Number (numberNode x (Some "deg"))) =
             numberNode (x * Math_PI / 180) (Some "rad")) /\
  (forall x, normalizeUnit (Number (numberNode x (Some "cm"))) =
             numberNode (x / 100) (Some "m")) /\
  (forall x, normalizeUnit (Number (numberNode x (Some "mm"))) =
             numberNode (x / 1000) (Some "m")) /\
  (forall n, unit n = None \/ unit n = Some "rad" \/ unit n = Some "m" ->
             normalizeUnit (Number n) = n) /\
  (forall env o f a b,
      arithmetic (operator_value o) = Some f ->
      supportedUnit (unit a) -> supportedUnit (unit b) ->
      mismatched (baseUnit (unit a)) (baseUnit (unit b)) = false ->
      valueOf (evaluate normalizeUnit env
                 (OperatorEvaluator o (Plain (Number a)) (Plain (Number b)) None)) =
      Number (numberNode
                (f (number (normalizeNumber a)) (number (normalizeNumber b)))
                (presentUnit (baseUnit (unit a)) (baseUnit (unit b))))) /\
  (forall env,
      valueOf (evaluate normalizeUnit env
                 (OperatorEvaluator (operatorNode "+")
                    (Plain (Number (numberNode 1 (Some "m"))))
                    (Plain (Number (numberNode 1000 (Some "mm")))) None)) =
      Number (numberNode 2 (Some "m"))) /\
  (forall env,
      valueOf (evaluate normalizeUnit env
                 (OperatorEvaluator (operatorNode "+")
                    (Plain (Number (numberNode 180 (Some "deg"))))
                    (Plain (Number (numberNode Math_PI (Some "rad")))) None)) =
      Number (numberNode (2 * Math_PI) (Some "rad"))).
Proof.
  split; [exact evaluate_operator_uncached|].
  split.
  { intros o leftNode rightNode f u Hf Hm Hu Hl Hp.
    rewrite (applyOperator_arithmetic o _ _ f Hf Hm).
    now rewrite (unit_or_present _ _ u Hm Hu Hp Hl). }
  split; [exact normalizeNumber_unit|].
  split; [reflexivity|]. split; [reflexivity|]. split; [reflexivity|].
  split.
  { intros [x u] [H|[H|H]]; simpl in H; subst u; reflexivity. }
  split.
  { intros env o f a b Hf Ha Hb Hm.
    rewrite evaluate_operator_uncached. simpl.
    pose proof (normalizeNumber_unit a Ha) as Ua.
    pose proof (normalizeNumber_unit b Hb) as Ub.
    rewrite (applyOperator_arithmetic o _ _ f Hf) by (now rewrite Ua, Ub).
    rewrite Ua, Ub. rewrite unit_or_presentUnit by apply baseUnit_nonempty.
    reflexivity. }
  split; intros env; reflexivity.
Qed.

(** ** [EnvEvaluator] *)

Lemma EnvEvaluator_evaluate_scroll (env : Environment) :
  EnvEvaluator_evaluate env (Some windowScrollY) =
  Number (numberNode
            (if Number_falsy (scrollQuotient env) then 0%float
             else scrollQuotient env)
            None).
Proof. reflexivity. Qed.

Lemma evaluate_env (N : Node -> NumberNode) (env : Environment)
    (ident : option IdentNode) (last : option Node) :
  evaluate N env (EnvEvaluator ident last) =
  (EnvEvaluator_evaluate env ident,
   EnvEvaluator ident (Some (EnvEvaluator_evaluate env ident)), 1).
Proof. rewrite evaluate_dynamic by reflexivity. reflexivity. Qed.

(** C7 as stated fails: on a page scrolled by 10 whose scroll extent
    equals the viewport height the divisor is 0 and the quotient is
    infinite, and yet [window-scroll-y] does not evaluate to 0. *)
Lemma env_zero_divisor_not_guarded :
  ~ (forall env : Environment,
        (scrollDivisor env =? 0)%float = true \/
        is_finite (scrollQuotient env) = false ->
        EnvEvaluator_evaluate env (Some windowScrollY) = Number ZERO).
Proof.
  intros H. specialize (H scrolledFullPage (or_introl eq_refl)).
  apply (f_equal (fun node => is_infinity (numberOf node))) in H.
  vm_compute in H. discriminate H.
Qed.

(** C7, amended.  With the stored identifier [window-scroll-y] an
    [EnvEvaluator] evaluates, on every call and whatever its cache holds, to
    the unitless quotient of the scroll position by the scroll extent less
    the viewport height, replaced by 0 when that quotient is zero or not a
    number; the result is never not-a-number.  With any other identifier,
    or none, it evaluates to the zero sentinel.  The constructor stores the
    first term of the first argument when it is an identifier, and nothing
    otherwise.  An [EnvEvaluator] is never constant.  On a page at rest
    whose scroll range is 0 the result is 0; on the same page scrolled by
    10 it is infinite. *)
Theorem env_evaluates_scroll_fraction (N : Node -> NumberNode)
    (env : Environment) :
  (forall last,
      valueOf (evaluate N env (EnvEvaluator (Some windowScrollY) last)) =
      Number (numberNode
                (if (scrollQuotient env =? 0)%float || is_nan (scrollQuotient env)
                 then 0%float else scrollQuotient env)
                None)) /\
  (forall last,
      is_nan (numberOf
                (valueOf (evaluate N env (EnvEvaluator (Some windowScrollY) last))))
      = false) /\
  (forall ident last,
      ident_value ident <> "window-scroll-y" ->
      valueOf (evaluate N env (EnvEvaluator (Some ident) last)) = Number ZERO) /\
  (forall last,
      valueOf (evaluate N env (EnvEvaluator None last)) = Number ZERO) /\
  (forall ident last,
      stepsOf (evaluate N env (EnvEvaluator ident last)) = 1) /\
  (forall ident last, isConstant (EnvEvaluator ident last) = false) /\
  new_EnvEvaluator [] = EnvEvaluator None None /\
  (forall ident rest others,
      new_EnvEvaluator (expressionNode (TIdent ident :: rest) :: others) =
      EnvEvaluator (Some ident) None) /\
  (forall t rest others,
      (forall ident, t <> TIdent ident) ->
      new_EnvEvaluator (expressionNode (t :: rest) :: others) =
      EnvEvaluator None None) /\
  (forall others,
      new_EnvEvaluator (expressionNode [] :: others) = EnvEvaluator None None) /\
  valueOf (evaluate N restingFullPage (EnvEvaluator (Some windowScrollY) None)) =
    Number ZERO /\
  valueOf (evaluate N scrolledFullPage (EnvEvaluator (Some windowScrollY) None)) =
    Number (numberNode infinity None).
Proof.
  split.
  { intros last. rewrite evaluate_env. reflexivity. }
  split.
  { intros last. rewrite evaluate_env. unfold valueOf. cbn [fst].
    rewrite EnvEvaluator_evaluate_scroll. unfold numberOf, Number_falsy.
    cbn [number].
    destruct (scrollQuotient env =? 0)%float; simpl; [reflexivity|].
    destruct (is_nan (scrollQuotient env)) eqn:E; [reflexivity|exact E]. }
  split.
  { intros ident last H. rewrite evaluate_env. unfold valueOf. simpl.
    destruct (String.eqb_spec (ident_value ident) "window-scroll-y");
      [contradiction|reflexivity]. }
  split; [intros; now rewrite evaluate_env|].
  split; [intros; now rewrite evaluate_env|].
  split; [reflexivity|]. split; [reflexivity|]. split; [reflexivity|].
  split; [|repeat split; now rewrite evaluate_env].
  intros t rest others H. unfold new_EnvEvaluator. simpl.
  destruct t; try reflexivity. now contradiction (H node).
Qed.

(** ** [CalcEvaluator]: failed reductions *)

Lemma multiplicativePass_continues
    (ef : ExpressionTerm -> Completion Evaluatable) (terms : list ExpressionTerm) :
  forall secondOrderTerms,
    hasLeftOperand secondOrderTerms ->
    multiplicativePass ef terms secondOrderTerms <> Normal None.
Proof.
  induction terms as [|term terms IH]; intros stack Hs; [discriminate|].
  unfold hasLeftOperand in Hs.
  destruct (array_last stack) as [top|] eqn:Etop; [|contradiction].
  assert (Hpush : forall entry,
             multiplicativePass ef terms (array_push stack entry) <> Normal None).
  { intros entry. apply IH. unfold hasLeftOperand.
    rewrite array_last_push. right.
    apply array_last_some in Etop. rewrite Etop.
    unfold array_push. rewrite !length_app. simpl. lia. }
  assert (Hpushed :
            (entry <- match term with
                      | TOperator o => Normal (Plain (Operator o))
                      | _ => ef term
                      end ;;
             multiplicativePass ef terms (array_push stack entry))
            <> Normal None).
  { destruct term; simpl; try apply Hpush;
      (destruct (ef _); simpl; [apply Hpush|discriminate]). }
  cbn [multiplicativePass]. rewrite Etop.
  destruct top as [[n|i|previousTerm]|e]; try exact Hpushed.
  destruct (IS_MULTIPLICATION_RE_test (operator_value previousTerm)) eqn:Emul;
    [|exact Hpushed].
  destruct Hs as [Hs|Hs]; [simpl in Hs; congruence|].
  unfold array_pop.
  destruct (array_last_removelast stack Hs) as [leftValue ->].
  destruct (evaluatableForEntry leftValue); simpl; [|discriminate].
  destruct (ef term); simpl; [|discriminate].
  apply IH. unfold hasLeftOperand. rewrite array_last_push. now left.
Qed.

Lemma evaluatableFor_no_operator (t : ExpressionTerm) (x : Evaluatable) :
  evaluatableFor t = Normal x -> isMultiplicationEntry x = false.
Proof.
  destruct t as [n|i|o|name arguments]; simpl; try discriminate.
  - intros H. inversion H. reflexivity.
  - destruct (ident_value name =? "calc").
    + destruct (new_CalcEvaluator evaluatableFor arguments); simpl;
        [|discriminate].
      intros H. inversion H. reflexivity.
    + destruct (ident_value name =? "env"); intros H; inversion H; reflexivity.
Qed.

(** X11.  The first loop bails out exactly when the term list opens with
    a multiplicative operator that is followed by a further term: only then
    is such an operator on the stack with nothing beneath it. *)
Lemma multiplicativePass_bails_iff (terms : list ExpressionTerm) :
  multiplicativePass evaluatableFor terms [] = Normal None <->
  exists o term rest,
    terms = TOperator o :: term :: rest /\
    IS_MULTIPLICATION_RE_test (operator_value o) = true.
Proof.
  split.
  - destruct terms as [|t ts]; [discriminate|].
    cbn [multiplicativePass]. unfold array_last at 1. cbn [rev].
    destruct t as [n|i|o|name arguments].
    + cbn. intros H. exfalso. revert H. apply multiplicativePass_continues.
      unfold hasLeftOperand. cbn. now left.
    + cbn. discriminate.
    + cbn [bind].
      destruct (IS_MULTIPLICATION_RE_test (operator_value o)) eqn:Emul.
      * destruct ts as [|term rest]; [discriminate|].
        intros _. now exists o, term, rest.
      * intros H. exfalso. revert H. apply multiplicativePass_continues.
        unfold hasLeftOperand. cbn. now left.
    + destruct (evaluatableFor (TFunction name arguments)) as [x|] eqn:Ex;
        cbn [bind]; [|discriminate].
      intros H. exfalso. revert H. apply multiplicativePass_continues.
      unfold hasLeftOperand. cbn -[isMultiplicationEntry]. left.
      exact (evaluatableFor_no_operator _ _ Ex).
  - intros (o & term & rest & -> & Hmul).
    cbn [multiplicativePass]. unfold array_last at 1. cbn [rev bind].
    unfold array_push at 1. cbn [app].
    unfold array_last at 1. cbn [rev app]. rewrite Hmul. reflexivity.
Qed.

(** A round of the second loop bails out when its middle entry is no
    operator node. *)
Lemma additiveFold_bails (leftEntry middle rightEntry : Evaluatable)
    (rest : list Evaluatable) :
  (forall o, middle <> Plain (Operator o)) ->
  additiveFold leftEntry (middle :: rightEntry :: rest) = Normal None.
Proof.
  intros H. simpl. destruct middle as [[n|i|o]|e]; try reflexivity.
  now contradiction (H o).
Qed.

Lemma new_CalcEvaluator_fails (arguments : list ExpressionNode) :
  CalcFails arguments ->
  new_CalcEvaluator evaluatableFor arguments = Normal (CalcEvaluator None None).
Proof.
  intros [H | expression -> H | expression s -> H1 H2
          | expression s remaining -> H1 H2 H3].
  - destruct arguments as [|a [|b rest]]; try reflexivity.
    now contradiction H.
  - unfold new_CalcEvaluator. now rewrite H.
  - unfold new_CalcEvaluator. rewrite H1. cbn [bind]. now rewrite H2.
  - unfold new_CalcEvaluator. rewrite H1. cbn [bind]. rewrite H2. cbn [bind].
    destruct remaining as [|a [|b rest]]; try reflexivity.
    now contradiction H3.
Qed.

Lemma new_CalcEvaluator_unset_fails (arguments : list ExpressionNode)
    (last : option Node) :
  new_CalcEvaluator evaluatableFor arguments = Normal (CalcEvaluator None last) ->
  CalcFails arguments.
Proof.
  destruct arguments as [|expression [|b rest]];
    try (intros _; apply fails_argument_count; simpl; lia).
  unfold new_CalcEvaluator.
  destruct (multiplicativePass evaluatableFor (terms expression) [])
    as [[s|]|] eqn:E1; cbn [bind]; try discriminate.
  - destruct (additivePass s) as [[remaining|]|] eqn:E2; cbn [bind];
      try discriminate.
    + destruct remaining as [|a [|c more]]; try discriminate;
        intros _; eapply fails_remaining; eauto; simpl; lia.
    + intros _. eapply fails_middle_entry; eauto.
  - intros _. eapply fails_no_left_operand; eauto.
Qed.

Lemma evaluate_unset (N : Node -> NumberNode) (env : Environment) :
  evaluate N env (CalcEvaluator None None) =
  (Number ZERO, CalcEvaluator None (Some (Number ZERO)), 1).
Proof. reflexivity. Qed.

(** C8.  When the argument count of the function node is not 1, or the
    reduction of its term list fails (the first loop bails out for want of
    a left operand, the second for a middle entry that is no operator, or
    the entries left at the end are not exactly one), the constructor
    returns a [CalcEvaluator] without inner tree, and that evaluator
    evaluates to the zero sentinel (0, null) on its first call and on every
    later one. *)
Theorem calc_failed_reduction (N : Node -> NumberNode) (env : Environment)
    (envs : list Environment) (arguments : list ExpressionNode) :
  CalcFails arguments ->
  new_CalcEvaluator evaluatableFor arguments = Normal (CalcEvaluator None None) /\
  Forall (fun r => valueOf r = Number ZERO)
    (evaluate_each N (env :: envs) (CalcEvaluator None None)).
Proof.
  intros H. split; [now apply new_CalcEvaluator_fails|].
  cbn [evaluate_each]. rewrite evaluate_unset. constructor; [reflexivity|].
  unfold objectOf. cbn [fst snd].
  eapply Forall_impl;
    [|apply (evaluate_each_cached N (CalcEvaluator None (Some (Number ZERO)))
               (Number ZERO) eq_refl eq_refl)].
  intros r ->. reflexivity.
Qed.

(** ** [SphericalEvaluator] *)

Lemma new_SphericalEvaluator_defaults (expressions : list ExpressionNode)
    (s : SphericalEvaluator) :
  new_SphericalEvaluator expressions = Normal s ->
  (nth_error (firstTerms expressions) 0 = None -> theta s = Plain (Number ZERO)) /\
  (nth_error (firstTerms expressions) 1 = None -> phi s = Plain (Number ZERO)) /\
  (nth_error (firstTerms expressions) 2 = None -> radius s = Plain (Ident AUTO)).
Proof.
  unfold new_SphericalEvaluator.
  fold (firstTerms expressions).
  destruct (firstTerms expressions) as [|a [|b [|c rest]]];
    cbn [nth_error].
  - cbn. intros H. inversion H. repeat split; reflexivity.
  - destruct (evaluatableFor a) as [x|]; cbn; [|discriminate].
    intros H. inversion H. repeat split; try discriminate; reflexivity.
  - destruct (evaluatableFor a) as [x|]; cbn -[evaluatableFor]; [|discriminate].
    destruct (evaluatableFor b) as [y|]; cbn; [|discriminate].
    intros H. inversion H. repeat split; try discriminate; reflexivity.
  - intros _. repeat split; discriminate.
Qed.

(** C9.  Without expressions the constructor takes the zero sentinel for
    azimuth and inclination and the [auto] identifier for the radius, and in
    general each term that is missing is replaced so; with the normalizer
    of the specification the default evaluator evaluates to [0, 0, 'auto'],
    and the evaluator of (1, rad), (180, deg), (100, cm) to [1, pi, 1]. *)
Theorem spherical_defaults_and_example :
  new_SphericalEvaluator [] = Normal defaultSpherical /\
  (forall expressions s,
      new_SphericalEvaluator expressions = Normal s ->
      (nth_error (firstTerms expressions) 0 = None ->
       theta s = Plain (Number ZERO)) /\
      (nth_error (firstTerms expressions) 1 = None ->
       phi s = Plain (Number ZERO)) /\
      (nth_error (firstTerms expressions) 2 = None ->
       radius s = Plain (Ident AUTO))) /\
  (forall env,
      valueOf (SphericalEvaluator_evaluate normalizeUnit env defaultSpherical) =
      (0%float, 0%float, inr "auto")) /\
  (forall env, exists s,
      new_SphericalEvaluator
        [expressionNode [TNumber (numberNode 1 (Some "rad"));
                         TNumber (numberNode 180 (Some "deg"));
                         TNumber (numberNode 100 (Some "cm"))]] = Normal s /\
      valueOf (SphericalEvaluator_evaluate normalizeUnit env s) =
      (1%float, Math_PI, inl 1%float)).
Proof.
  split; [reflexivity|].
  split; [exact new_SphericalEvaluator_defaults|].
  split; [intros env; reflexivity|].
  intros env. eexists. split; reflexivity.
Qed.

(** C10.  When the third term is an identifier, whatever its name, and the
    first two terms are accepted, the constructor keeps the identifier node
    itself as radius; the evaluator then yields the numbers of the
    normalized azimuth and inclination and, as third element, the
    identifier's string, and the radius slot still holds the identifier
    node afterwards. *)
Theorem spherical_radius_identifier (N : Node -> NumberNode) (env : Environment)
    (thetaTerm phiTerm : ExpressionTerm) (i : IdentNode)
    (rest : list ExpressionTerm) (others : list ExpressionNode)
    (t p : Evaluatable) :
  evaluatableFor thetaTerm = Normal t ->
  evaluatableFor phiTerm = Normal p ->
  let s := mkSpherical t p (Plain (Ident i)) None in
  new_SphericalEvaluator
    (expressionNode (thetaTerm :: phiTerm :: TIdent i :: rest) :: others)
  = Normal s /\
  valueOf (SphericalEvaluator_evaluate N env s) =
    (number (N (valueOf (Evaluator_evaluate N env t))),
     number (N (valueOf (Evaluator_evaluate N env p))),
     inr (ident_value i)) /\
  radius (objectOf (SphericalEvaluator_evaluate N env s)) = Plain (Ident i).
Proof.
  intros Ht Hp s. split; [|split].
  - unfold new_SphericalEvaluator. cbn -[evaluatableFor].
    rewrite Ht, Hp. reflexivity.
  - unfold SphericalEvaluator_evaluate, s. cbn [sphericalLastValue].
    rewrite method_uncached, stored_value.
    unfold SphericalEvaluator_evaluate_step. cbn [radius theta phi Evaluator_evaluate].
    destruct (Evaluator_evaluate N env t) as [[tv t'] kt].
    destruct (Evaluator_evaluate N env p) as [[pv p'] kp].
    reflexivity.
  - unfold SphericalEvaluator_evaluate, s. cbn [sphericalLastValue].
    rewrite method_uncached, stored_object.
    unfold SphericalEvaluator_evaluate_step. cbn [radius theta phi Evaluator_evaluate].
    destruct (Evaluator_evaluate N env t) as [[tv t'] kt].
    destruct (Evaluator_evaluate N env p) as [[pv p'] kp].
    reflexivity.
Qed.

(** ** What construction preserves *)

Section TermInduction.

Variable P : ExpressionTerm -> Prop.
Hypothesis P_number : forall n, P (TNumber n).
Hypothesis P_ident : forall i, P (TIdent i).
Hypothesis P_operator : forall o, P (TOperator o).
Hypothesis P_function :
  forall name arguments,
    Forall (fun e => Forall P (terms e)) arguments ->
    P (TFunction name arguments).

Fixpoint ExpressionTerm_nested_ind (t : ExpressionTerm) : P t :=
  match t with
  | TNumber n => P_number n
  | TIdent i => P_ident i
  | TOperator o => P_operator o
  | TFunction name arguments =>
      P_function name arguments
        ((fix over_arguments (l : list ExpressionNode)
            : Forall (fun e => Forall P (terms e)) l :=
            match l with
            | [] => Forall_nil _
            | e :: l' =>
                Forall_cons e
                  (match e return Forall P (terms e) with
                   | expressionNode ts =>
                       (fix over_terms (ts : list ExpressionTerm) : Forall P ts :=
                          match ts with
                          | [] => Forall_nil _
                          | t' :: ts' =>
                              Forall_cons t' (ExpressionTerm_nested_ind t')
                                (over_terms ts')
                          end) ts
                   end)
                  (over_arguments l')
            end) arguments)
  end.

End TermInduction.

Section ConstructionInvariant.

Variable ef : ExpressionTerm -> Completion Evaluatable.
Variable Q : Evaluatable -> Prop.
Hypothesis Q_operator : forall o, Q (Plain (Operator o)).
Hypothesis Q_combined :
  forall o l r,
    isValue l = true -> isValue r = true -> Q l -> Q r ->
    Q (Computed (OperatorEvaluator o l r None)).

Lemma evaluatableForEntry_returns (x y : Evaluatable) :
  evaluatableForEntry x = Normal y -> y = x /\ isValue x = true.
Proof.
  destruct x as [[n|i|o]|e]; simpl; intros H; inversion H; now split.
Qed.

Lemma Forall_array_push (s : list Evaluatable) (x : Evaluatable) :
  Forall Q s -> Q x -> Forall Q (array_push s x).
Proof.
  intros Hs Hx. unfold array_push. apply Forall_app. split; [exact Hs|].
  now constructor.
Qed.

Lemma Forall_removelast (s : list Evaluatable) :
  Forall Q s -> Forall Q (removelast s).
Proof.
  induction 1 as [|x s Hx Hs IH]; [constructor|].
  simpl. destruct s; [constructor|]. constructor; assumption.
Qed.

Lemma Forall_array_last (s : list Evaluatable) (x : Evaluatable) :
  Forall Q s -> array_last s = Some x -> Q x.
Proof.
  intros Hs Hx. apply array_last_some in Hx. rewrite Hx in Hs.
  apply Forall_app in Hs. destruct Hs as [_ Hs]. now inversion Hs.
Qed.

Lemma multiplicativePass_invariant (terms : list ExpressionTerm) :
  (forall t x, In t terms -> ef t = Normal x -> Q x /\ isValue x = true) ->
  forall stack result,
    Forall Q stack ->
    multiplicativePass ef terms stack = Normal (Some result) ->
    Forall Q result.
Proof.
  induction terms as [|term terms IH]; intros Hterms stack result Hs.
  - simpl. intros H. inversion H; subst. exact Hs.
  - assert (Hrest : forall t x, In t terms -> ef t = Normal x ->
                                Q x /\ isValue x = true)
      by (intros t x Ht; apply Hterms; now right).
    assert (Hpushed :
              (entry <- match term with
                        | TOperator o => Normal (Plain (Operator o))
                        | _ => ef term
                        end ;;
               multiplicativePass ef terms (array_push stack entry))
              = Normal (Some result) -> Forall Q result).
    { destruct (match term with
                | TOperator o => Normal (Plain (Operator o))
                | _ => ef term
                end) as [entry|] eqn:Eentry; cbn [bind]; [|discriminate].
      apply (IH Hrest). apply Forall_array_push; [exact Hs|].
      destruct term; try (apply (Hterms _ entry (or_introl eq_refl) Eentry)).
      inversion Eentry. apply Q_operator. }
    cbn [multiplicativePass].
    destruct (array_last stack) as [[[n|i|previousTerm]|e]|] eqn:Etop;
      try exact Hpushed.
    destruct (IS_MULTIPLICATION_RE_test (operator_value previousTerm));
      [|exact Hpushed].
    unfold array_pop.
    destruct (array_last (removelast stack)) as [leftValue|] eqn:Eleft;
      [|discriminate].
    destruct (evaluatableForEntry leftValue) as [l|] eqn:El; cbn [bind];
      [|discriminate].
    destruct (ef term) as [r|] eqn:Er; cbn [bind]; [|discriminate].
    apply (IH Hrest). apply Forall_array_push.
    + now do 2 apply Forall_removelast.
    + apply evaluatableForEntry_returns in El. destruct El as [-> Hl].
      destruct (Hterms term r (or_introl eq_refl) Er) as [Hr Hvr].
      apply Q_combined; try assumption.
      apply (Forall_array_last (removelast stack)); [|exact Eleft].
      now apply Forall_removelast.
Qed.

Lemma additiveFold_invariant (rest : list Evaluatable) :
  forall leftEntry result,
    Q leftEntry -> Forall Q rest ->
    additiveFold leftEntry rest = Normal (Some result) ->
    Forall Q result.
Proof.
  assert (Hn : forall n rest, length rest <= n ->
               forall leftEntry result,
                 Q leftEntry -> Forall Q rest ->
                 additiveFold leftEntry rest = Normal (Some result) ->
                 Forall Q result).
  { clear rest. induction n as [|n IH]; intros rest Hlen leftEntry result Hl Hrest.
    - destruct rest; [|simpl in Hlen; lia].
      simpl. intros H. inversion H. now constructor.
    - destruct rest as [|operator [|rightEntry rest']].
      + simpl. intros H. inversion H. now constructor.
      + simpl. intros H. inversion H. now constructor.
      + cbn [additiveFold].
        destruct operator as [[m|i|o]|e]; try discriminate.
        destruct (evaluatableForEntry leftEntry) as [l|] eqn:El; cbn [bind];
          [|discriminate].
        destruct (evaluatableForEntry rightEntry) as [r|] eqn:Er; cbn [bind];
          [|discriminate].
        apply evaluatableForEntry_returns in El, Er.
        destruct El as [-> Hvl]. destruct Er as [-> Hvr].
        inversion Hrest as [|? ? _ Hrest']; subst.
        inversion Hrest' as [|? ? Hr Hrest'']; subst.
        apply IH; [simpl in Hlen; lia| |exact Hrest''].
        now apply Q_combined. }
  exact (Hn (length rest) rest (le_n _)).
Qed.

(** Whatever holds of every operand the dispatch returns, of operator
    nodes, and of an operator evaluator once it holds of its operands,
    holds of the inner tree of the [CalcEvaluator] that is built; and the
    cache of that evaluator is empty. *)
Lemma new_CalcEvaluator_invariant (arguments : list ExpressionNode)
    (c : Evaluator) :
  (forall e t x, In e arguments -> In t (terms e) -> ef t = Normal x ->
                 Q x /\ isValue x = true) ->
  new_CalcEvaluator ef arguments = Normal c ->
  c = CalcEvaluator None None \/
  exists x, c = CalcEvaluator (Some x) None /\ Q x.
Proof.
  intros Hargs. unfold new_CalcEvaluator.
  destruct arguments as [|expression [|other rest]];
    try (intros H; inversion H; now left).
  destruct (multiplicativePass ef (terms expression) []) as [[s|]|] eqn:E1;
    cbn [bind]; try discriminate; [|intros H; inversion H; now left].
  assert (Hs : Forall Q s).
  { apply (multiplicativePass_invariant (terms expression)
             (fun t x Ht => Hargs expression t x (or_introl eq_refl) Ht)
             [] s (Forall_nil _) E1). }
  destruct (additivePass s) as [[result|]|] eqn:E2; cbn [bind];
    try discriminate; [|intros H; inversion H; now left].
  assert (Hresult : Forall Q result).
  { unfold additivePass in E2. destruct s as [|leftEntry rest].
    - inversion E2. constructor.
    - inversion Hs; subst. now apply (additiveFold_invariant rest leftEntry). }
  destruct result as [|x [|y more]]; intros H; inversion H; try now left.
  right. exists x. split; [reflexivity|]. now inversion Hresult.
Qed.

End ConstructionInvariant.

Section BuiltInvariant.

Variable Q : Evaluatable -> Prop.
Hypothesis Q_number : forall n, Q (Plain (Number n)).
Hypothesis Q_operator : forall o, Q (Plain (Operator o)).
Hypothesis Q_combined :
  forall o l r,
    isValue l = true -> isValue r = true -> Q l -> Q r ->
    Q (Computed (OperatorEvaluator o l r None)).
Hypothesis Q_env : forall ident, Q (Computed (EnvEvaluator ident None)).
Hypothesis Q_calc_unset : Q (Computed (CalcEvaluator None None)).
Hypothesis Q_calc :
  forall x, Q x -> Q (Computed (CalcEvaluator (Some x) None)).

Lemma new_EnvEvaluator_shape (arguments : list ExpressionNode) :
  exists ident, new_EnvEvaluator arguments = EnvEvaluator ident None.
Proof.
  unfold new_EnvEvaluator.
  destruct arguments as [|e rest]; [now exists None|].
  destruct (nth_error (terms e) 0) as [[n|i|o|name args]|];
    eexists; reflexivity.
Qed.

(** A property that holds of number and operator nodes and is kept by the
    three constructors holds of whatever the dispatch returns. *)
Lemma evaluatableFor_invariant (t : ExpressionTerm) :
  forall x, evaluatableFor t = Normal x -> Q x.
Proof.
  induction t as [n|i|o|name arguments IH] using ExpressionTerm_nested_ind;
    intros x; simpl; try discriminate.
  - intros H. inversion H. apply Q_number.
  - destruct (ident_value name =? "calc").
    + destruct (new_CalcEvaluator evaluatableFor arguments) as [c|] eqn:Ec;
        cbn [bind]; [|discriminate].
      intros H. inversion H; subst x.
      apply (new_CalcEvaluator_invariant evaluatableFor Q Q_operator Q_combined)
        in Ec.
      * destruct Ec as [->|(y & -> & Hy)]; [apply Q_calc_unset|now apply Q_calc].
      * intros e t y He Ht Hy. split; [|exact (evaluatableFor_value _ _ Hy)].
        rewrite Forall_forall in IH. specialize (IH e He).
        rewrite Forall_forall in IH. exact (IH t Ht y Hy).
    + destruct (ident_value name =? "env"); intros H; inversion H.
      * destruct (new_EnvEvaluator_shape arguments) as [ident ->]. apply Q_env.
      * apply Q_number.
Qed.

End BuiltInvariant.

Lemma evaluatableFor_fresh (t : ExpressionTerm) (x : Evaluatable) :
  evaluatableFor t = Normal x -> Evaluatable_structure x = x.
Proof.
  revert x. apply evaluatableFor_invariant; try reflexivity.
  - intros o l r _ _ Hl Hr. simpl in *. now rewrite Hl, Hr.
  - intros y Hy. simpl in *. now rewrite Hy.
Qed.

Lemma evaluatableFor_operandsAreValues (t : ExpressionTerm) (x : Evaluatable) :
  evaluatableFor t = Normal x -> Evaluatable_operandsAreValues x.
Proof.
  revert x. apply evaluatableFor_invariant; simpl; auto.
Qed.

(** X1.  What the dispatch returns for a term is newly built: every cache in
    it is empty, and every operand of an operator evaluator in it is a
    number node or an evaluator, as is the result itself. *)
Theorem evaluatableFor_builds_fresh (t : ExpressionTerm) (x : Evaluatable) :
  evaluatableFor t = Normal x ->
  Evaluatable_structure x = x /\ Evaluatable_operandsAreValues x /\
  isValue x = true.
Proof.
  intros H. split; [|split].
  - exact (evaluatableFor_fresh _ _ H).
  - exact (evaluatableFor_operandsAreValues _ _ H).
  - exact (evaluatableFor_value _ _ H).
Qed.

Lemma mentionsEnv_arguments (name : IdentNode) (arguments : list ExpressionNode) :
  mentionsEnv (TFunction name arguments) = false ->
  (ident_value name =? "env") = false /\
  forall e t, In e arguments -> In t (terms e) -> mentionsEnv t = false.
Proof.
  cbn [mentionsEnv]. intros H. apply orb_false_iff in H. destruct H as [Hn Ha].
  split; [exact Hn|]. intros e t He Ht.
  destruct (mentionsEnv t) eqn:Et; [|reflexivity].
  assert (existsb (fun e => existsb mentionsEnv (terms e)) arguments = true).
  { apply existsb_exists. exists e. split; [exact He|].
    apply existsb_exists. now exists t. }
  congruence.
Qed.

(** X2.  A term in which no function is named [env] builds a constant
    evaluatable, whenever the dispatch returns. *)
Theorem evaluatableFor_constant (t : ExpressionTerm) :
  forall x, mentionsEnv t = false -> evaluatableFor t = Normal x ->
            Evaluator_isConstant x = true.
Proof.
  induction t as [n|i|o|name arguments IH] using ExpressionTerm_nested_ind;
    intros x Hm; simpl; try discriminate.
  - intros H. now inversion H.
  - apply mentionsEnv_arguments in Hm. destruct Hm as [Hname Hargs].
    destruct (ident_value name =? "calc").
    + destruct (new_CalcEvaluator evaluatableFor arguments) as [c|] eqn:Ec;
        cbn [bind]; [|discriminate].
      intros H. inversion H; subst x.
      apply (new_CalcEvaluator_invariant evaluatableFor
               (fun y => Evaluator_isConstant y = true)) in Ec.
      * destruct Ec as [->|(y & -> & Hy)]; [reflexivity|exact Hy].
      * reflexivity.
      * intros p l r _ _ Hl Hr. simpl. now rewrite Hl, Hr.
      * intros e t y He Ht Hy. split; [|exact (evaluatableFor_value _ _ Hy)].
        rewrite Forall_forall in IH. specialize (IH e He).
        rewrite Forall_forall in IH. exact (IH t Ht y (Hargs e t He Ht) Hy).
    + rewrite Hname. intros H. now inversion H.
Qed.

Lemma cachesAgree_fresh (N : Node -> NumberNode) (x : Evaluatable) :
  Evaluatable_structure x = x -> Evaluatable_cachesAgree N x.
Proof.
  intros H. rewrite <- H. apply cachesAgree_structure.
Qed.

(** X3.  An evaluator the dispatch has built returns, on every call of
    [evaluate()] however many went before and in whatever environments,
    the value that evaluation without any cache gives in the environment
    of the call. *)
Theorem built_evaluator_ignores_history (N : Node -> NumberNode)
    (t : ExpressionTerm) (e : Evaluator) (envs : list Environment) :
  evaluatableFor t = Normal (Computed e) ->
  map valueOf (evaluate_each N envs e) =
  map (fun env => uncachedValue N env e) envs.
Proof.
  intros H. apply evaluate_each_uncachedValue.
  exact (cachesAgree_fresh N (Computed e) (evaluatableFor_fresh _ _ H)).
Qed.

Lemma SphericalEvaluator_evaluate_uncachedValue (N : Node -> NumberNode)
    (env : Environment) (s : SphericalEvaluator) :
  SphericalEvaluator_cachesAgree N s ->
  valueOf (SphericalEvaluator_evaluate N env s) =
    SphericalEvaluator_uncachedValue N env s /\
  SphericalEvaluator_cachesAgree N (objectOf (SphericalEvaluator_evaluate N env s)) /\
  (forall env', SphericalEvaluator_uncachedValue N env'
                  (objectOf (SphericalEvaluator_evaluate N env s)) =
                SphericalEvaluator_uncachedValue N env' s).
Proof.
  intros (Hcache & Ht & Hp & Hr).
  destruct (proj2 (evaluate_uncachedValue N env) _ Ht) as [Vt Ht'].
  destruct (proj2 (evaluate_uncachedValue N env) _ Hp) as [Vp Hp'].
  destruct (proj2 (evaluate_uncachedValue N env) _ Hr) as [Vr Hr'].
  pose proof (fun env' => uncachedValue_after N env' env (theta s)) as At.
  pose proof (fun env' => uncachedValue_after N env' env (phi s)) as Ap.
  pose proof (fun env' => uncachedValue_after N env' env (radius s)) as Ar.
  pose proof (Evaluator_evaluate_isConstant N env (theta s)) as Ct.
  pose proof (Evaluator_evaluate_isConstant N env (phi s)) as Cp.
  pose proof (Evaluator_evaluate_isConstant N env (radius s)) as Cr.
  unfold SphericalEvaluator_evaluate, SphericalEvaluator_evaluate_step.
  destruct (Evaluator_evaluate N env (radius s)) as [[rv r'] kr].
  destruct (Evaluator_evaluate N env (theta s)) as [[tv t'] kt].
  destruct (Evaluator_evaluate N env (phi s)) as [[pv p'] kp].
  unfold valueOf, objectOf in *. cbn [fst snd] in *.
  change (match rv with
          | Ident i => inr (ident_value i)
          | _ => inl (number (N rv))
          end) with (radiusOutput N rv).
  assert (Hstored :
            let r := stored SphericalEvaluator_setLastValue
                       (number (N tv), number (N pv), radiusOutput N rv,
                        mkSpherical t' p' r' (sphericalLastValue s),
                        kr + kt + kp) in
            fst (fst r) = SphericalEvaluator_uncachedValue N env s /\
            SphericalEvaluator_cachesAgree N (snd (fst r)) /\
            (forall env', SphericalEvaluator_uncachedValue N env' (snd (fst r)) =
                          SphericalEvaluator_uncachedValue N env' s)).
  { cbn -[radiusOutput].
    unfold SphericalEvaluator_uncachedValue, SphericalEvaluator_cachesAgree,
      SphericalEvaluator_isConstant. cbn -[radiusOutput].
    assert (Hsame : forall env',
               (number (N (Evaluatable_uncachedValue N env' t')),
                number (N (Evaluatable_uncachedValue N env' p')),
                radiusOutput N (Evaluatable_uncachedValue N env' r')) =
               (number (N (Evaluatable_uncachedValue N env' (theta s))),
                number (N (Evaluatable_uncachedValue N env' (phi s))),
                radiusOutput N (Evaluatable_uncachedValue N env' (radius s)))).
    { intros env'. now rewrite At, Ap, Ar. }
    split; [now rewrite Vt, Vp, Vr|]. split; [|exact Hsame].
    split; [|now repeat split].
    intros Hconst v Hv env'. inversion Hv; subst v.
    unfold SphericalEvaluator_uncachedValue, SphericalEvaluator_setLastValue.
    cbn [theta phi radius]. rewrite Hsame.
    rewrite Ct, Cp, Cr in Hconst.
    apply andb_true_iff in Hconst. destruct Hconst as [Hconst Hcr].
    apply andb_true_iff in Hconst. destruct Hconst as [Hct Hcp].
    rewrite Vt, Vp, Vr.
    rewrite (proj2 (uncachedValue_constant N env env') _ Hct).
    rewrite (proj2 (uncachedValue_constant N env env') _ Hcp).
    rewrite (proj2 (uncachedValue_constant N env env') _ Hcr).
    reflexivity. }
  destruct (sphericalLastValue s) as [v|] eqn:El; [|exact Hstored].
  destruct (SphericalEvaluator_isConstant s) eqn:Ec;
    [|rewrite method_dynamic; exact Hstored].
  rewrite method_cached. cbn [fst snd]. split; [|split].
  - exact (Hcache eq_refl v eq_refl env).
  - unfold SphericalEvaluator_cachesAgree. repeat split; try assumption.
    intros _ v0 Hv0 env'. rewrite El in Hv0. exact (Hcache eq_refl v0 Hv0 env').
  - reflexivity.
Qed.

Lemma SphericalEvaluator_each_uncachedValue (N : Node -> NumberNode)
    (envs : list Environment) :
  forall s, SphericalEvaluator_cachesAgree N s ->
    map valueOf (SphericalEvaluator_evaluate_each N envs s) =
    map (fun env => SphericalEvaluator_uncachedValue N env s) envs.
Proof.
  induction envs as [|env envs IH]; intros s Hs; [reflexivity|].
  cbn [SphericalEvaluator_evaluate_each map].
  destruct (SphericalEvaluator_evaluate_uncachedValue N env s Hs)
    as (Hv & Hs' & Hsame).
  rewrite Hv, (IH _ Hs'). f_equal.
  apply map_ext. exact Hsame.
Qed.

(** The slots of a spherical evaluator that has been built: what the
    dispatch returned for the first two terms, and for the third unless it
    is an identifier, which is kept. *)
Lemma new_SphericalEvaluator_slots (expressions : list ExpressionNode)
    (s : SphericalEvaluator) :
  new_SphericalEvaluator expressions = Normal s ->
  (exists thetaTerm, evaluatableFor thetaTerm = Normal (theta s)) /\
  (exists phiTerm, evaluatableFor phiTerm = Normal (phi s)) /\
  match radiusTermOf expressions with
  | TIdent i => radius s = Plain (Ident i)
  | radiusTerm => evaluatableFor radiusTerm = Normal (radius s)
  end /\
  sphericalLastValue s = None.
Proof.
  intros H. unfold new_SphericalEvaluator in H.
  fold (firstTerms expressions) in H. fold (radiusTermOf expressions) in H.
  destruct (evaluatableFor
              match nth_error (firstTerms expressions) 0 with
              | Some t => t
              | None => TNumber ZERO
              end) as [t|] eqn:Et; cbn [bind] in H; [|discriminate].
  destruct (evaluatableFor
              match nth_error (firstTerms expressions) 1 with
              | Some t => t
              | None => TNumber ZERO
              end) as [p|] eqn:Ep; cbn [bind] in H; [|discriminate].
  destruct (radiusTermOf expressions) as [n|i|o|name args];
    cbn [bind] in H;
    try (destruct (evaluatableFor _) as [r|] eqn:Er in H; cbn [bind] in H;
         [|discriminate]);
    inversion H; subst s; cbn [theta phi radius sphericalLastValue];
    (split; [eexists; exact Et|]); (split; [eexists; exact Ep|]);
    split; try reflexivity; exact Er.
Qed.

Lemma new_SphericalEvaluator_cachesAgree (N : Node -> NumberNode)
    (expressions : list ExpressionNode) (s : SphericalEvaluator) :
  new_SphericalEvaluator expressions = Normal s ->
  SphericalEvaluator_cachesAgree N s.
Proof.
  intros H.
  destruct (new_SphericalEvaluator_slots _ _ H)
    as ((tt & Ht) & (pt & Hp) & Hr & Hl).
  unfold SphericalEvaluator_cachesAgree. rewrite Hl.
  split; [intros _ v Hv; discriminate|].
  split; [exact (cachesAgree_fresh N _ (evaluatableFor_fresh _ _ Ht))|].
  split; [exact (cachesAgree_fresh N _ (evaluatableFor_fresh _ _ Hp))|].
  destruct (radiusTermOf expressions) as [n|i|o|name args];
    try exact (cachesAgree_fresh N _ (evaluatableFor_fresh _ _ Hr)).
  rewrite Hr. exact I.
Qed.

(** X4.  A spherical evaluator, once built, returns on every call the triple
    that evaluation without any cache gives in the environment of the
    call. *)
Theorem built_spherical_ignores_history (N : Node -> NumberNode)
    (expressions : list ExpressionNode) (s : SphericalEvaluator)
    (envs : list Environment) :
  new_SphericalEvaluator expressions = Normal s ->
  map valueOf (SphericalEvaluator_evaluate_each N envs s) =
  map (fun env => SphericalEvaluator_uncachedValue N env s) envs.
Proof.
  intros H. apply SphericalEvaluator_each_uncachedValue.
  exact (new_SphericalEvaluator_cachesAgree N _ _ H).
Qed.

(** ** [calc()] over unitless numbers *)

Lemma applyOperator_unitless (o : OperatorNode) (a b : float) :
  applyOperator o (unitless a) (unitless b) =
  Number (unitless (applyArithmetic o a b)).
Proof.
  unfold applyOperator, applyArithmetic, arithmetic. simpl.
  destruct (operator_value o =? "+"); [reflexivity|].
  destruct (operator_value o =? "-"); [reflexivity|].
  destruct (operator_value o =? "/"); [reflexivity|].
  destruct (operator_value o =? "*"); reflexivity.
Qed.

Section UnitlessValues.

Variable N : Node -> NumberNode.
Variable env : Environment.
Hypothesis N_unitless : forall x, N (Number (unitless x)) = unitless x.

Lemma collapseProducts_value (rest : list (OperatorNode * float)) :
  forall current c,
    Evaluatable_uncachedValue N env current = Number (unitless c) ->
    Evaluatable_uncachedValue N env
      (fst (collapseProducts current (numberOperands rest))) =
      Number (unitless (fst (productsValue c rest))) /\
    Forall2 (agrees N env) (snd (collapseProducts current (numberOperands rest)))
      (snd (productsValue c rest)).
Proof.
  induction rest as [|[o x] rest IH]; intros current c Hc.
  - simpl. split; [exact Hc|constructor].
  - cbn [numberOperands map collapseProducts productsValue numberOperand snd].
    fold (numberOperands rest).
    destruct (IS_MULTIPLICATION_RE_test (operator_value o)).
    + apply IH. cbn [Evaluatable_uncachedValue uncachedValue literal].
      rewrite Hc, !N_unitless. apply applyOperator_unitless.
    + destruct (IH (literal x) x eq_refl) as [H1 H2].
      destruct (collapseProducts (literal x) (numberOperands rest)) as [f more].
      destruct (productsValue x rest) as [fv morev].
      cbn [fst snd] in *. split; [exact Hc|].
      constructor; [now split|exact H2].
Qed.

Lemma foldSums_value (more : list (OperatorNode * Evaluatable))
    (values : list (OperatorNode * float)) :
  Forall2 (agrees N env) more values ->
  forall first f,
    Evaluatable_uncachedValue N env first = Number (unitless f) ->
    Evaluatable_uncachedValue N env (foldSums first more) =
    Number (unitless (sumsValue f values)).
Proof.
  induction 1 as [|[o x] [o' v] more values [Ho Hx] Hrest IH]; intros first f Hf.
  - exact Hf.
  - cbn [fst snd] in Ho, Hx. subst o'.
    cbn [foldSums sumsValue fold_left]. apply IH.
    cbn [Evaluatable_uncachedValue uncachedValue].
    rewrite Hf, Hx, !N_unitless. apply applyOperator_unitless.
Qed.

End UnitlessValues.

Lemma numberOperands_dispatched (rest : list (OperatorNode * float)) :
  Forall (fun '(_, operand) => dispatched operand) (numberOperands rest).
Proof.
  induction rest as [|[o x] rest IH]; constructor; [reflexivity|exact IH].
Qed.

(** X5.  Over unitless numbers joined by operators, and for a normalizer
    that leaves unitless numbers as they are, [calc()] computes the
    arithmetic of the two-level grammar: the constructor returns, and the
    evaluator it returns evaluates to the unitless number obtained by
    folding each run of [*] and [/] from the left and then the remaining
    operators from the left. *)
Theorem calc_computes_precedence (N : Node -> NumberNode) (env : Environment)
    (first : float) (rest : list (OperatorNode * float)) :
  (forall x, N (Number (unitless x)) = unitless x) ->
  exists c,
    new_CalcEvaluator evaluatableFor
      [expressionNode
         (TNumber (unitless first) :: flattenTerms (numberOperands rest))]
    = Normal c /\
    valueOf (evaluate N env c) = Number (unitless (calcValue first rest)).
Proof.
  intros HN.
  pose proof (new_CalcEvaluator_alternating (numberOperand first)
                (numberOperands rest) eq_refl (numberOperands_dispatched rest))
    as Hc.
  cbn [numberOperand fst snd] in Hc.
  eexists. split; [exact Hc|].
  assert (Hbuilt :
            evaluatableFor
              (functionNode "calc"
                 [expressionNode
                    (TNumber (unitless first) :: flattenTerms (numberOperands rest))])
            = Normal (Computed
                        (CalcEvaluator
                           (Some (foldSums
                                    (fst (collapseProducts (literal first)
                                            (numberOperands rest)))
                                    (snd (collapseProducts (literal first)
                                            (numberOperands rest)))))
                           None))).
  { rewrite evaluatableFor_calc, Hc. reflexivity. }
  pose proof (cachesAgree_fresh N _ (evaluatableFor_fresh _ _ Hbuilt)) as Hagree.
  destruct (proj1 (evaluate_uncachedValue N env) _
              (Hagree : cachesAgree N (CalcEvaluator (Some _) None))) as [Hv _].
  rewrite Hv. cbn [uncachedValue].
  destruct (collapseProducts_value N env HN rest (literal first) first eq_refl)
    as [H1 H2].
  exact (foldSums_value N env HN _ _ H2 _ _ H1).
Qed.

(** ** More on evaluation *)

Lemma unknown_operator_each (N : Node -> NumberNode) (o : OperatorNode)
    (envs : list Environment) :
  arithmetic (operator_value o) = None ->
  forall l r last,
    last = None \/ last = Some (Number ZERO) ->
    Forall (fun outcome => valueOf outcome = Number ZERO)
      (evaluate_each N envs (OperatorEvaluator o l r last)).
Proof.
  intros Ho. induction envs as [|env envs IH]; intros l r last Hlast;
    [constructor|].
  cbn [evaluate_each].
  assert (Hstep : valueOf (evaluate_step N env (OperatorEvaluator o l r last))
                  = Number ZERO).
  { simpl.
    destruct (Evaluator_evaluate N env l) as [[lv l'] kl].
    destruct (Evaluator_evaluate N env r) as [[rv r'] kr].
    apply applyOperator_unknown. exact Ho. }
  assert (Hobject : exists l' r',
             objectOf (evaluate_step N env (OperatorEvaluator o l r last))
             = OperatorEvaluator o l' r' last).
  { simpl.
    destruct (Evaluator_evaluate N env l) as [[lv l'] kl].
    destruct (Evaluator_evaluate N env r) as [[rv r'] kr].
    now exists l', r'. }
  rewrite evaluate_unfold.
  assert (Hstored :
            let outcome := stored setLastValue
                             (evaluate_step N env (OperatorEvaluator o l r last)) in
            valueOf outcome = Number ZERO /\
            Forall (fun outcome => valueOf outcome = Number ZERO)
              (evaluate_each N envs (objectOf outcome))).
  { cbn zeta. rewrite stored_value, stored_object. split; [exact Hstep|].
    destruct Hobject as (l' & r' & ->). rewrite Hstep. simpl.
    apply IH. now right. }
  destruct Hstored as [H1 H2].
  cbn [lastValue].
  destruct Hlast as [->| ->].
  - rewrite method_uncached. now constructor.
  - destruct (isConstant (OperatorEvaluator o l r (Some (Number ZERO)))).
    + rewrite method_cached. constructor; [reflexivity|].
      unfold objectOf. cbn [fst snd]. apply IH. now right.
    + rewrite method_dynamic. now constructor.
Qed.

(** X6.  An [OperatorEvaluator] whose operator symbol is none of [+], [-],
    [/] and [*] evaluates to the zero sentinel on every call, whatever its
    operands are and evaluate to. *)
Theorem operator_unknown_symbol (N : Node -> NumberNode) (o : OperatorNode)
    (l r : Evaluatable) (envs : list Environment) :
  arithmetic (operator_value o) = None ->
  Forall (fun outcome => valueOf outcome = Number ZERO)
    (evaluate_each N envs (OperatorEvaluator o l r None)).
Proof.
  intros Ho. apply unknown_operator_each; [exact Ho|now left].
Qed.

Lemma evaluate_again_method (N : Node -> NumberNode) (env : Environment)
    (e : Evaluator) :
  (let step := evaluate_step N env e in
   let e1 := setLastValue (objectOf step) (valueOf step) in
   valueOf (evaluate_step N env e1) = valueOf step /\
   setLastValue (objectOf (evaluate_step N env e1)) (valueOf step) = e1) ->
  valueOf (evaluate N env (objectOf (evaluate N env e))) =
    valueOf (evaluate N env e) /\
  objectOf (evaluate N env (objectOf (evaluate N env e))) =
    objectOf (evaluate N env e).
Proof.
  cbn zeta. intros [Hv Ho].
  assert (Hstored :
            let first := stored setLastValue (evaluate_step N env e) in
            valueOf (evaluate N env (objectOf first)) = valueOf first /\
            objectOf (evaluate N env (objectOf first)) = objectOf first).
  { cbn zeta. rewrite stored_value, stored_object.
    set (v := valueOf (evaluate_step N env e)) in *.
    set (e1 := setLastValue (objectOf (evaluate_step N env e)) v) in *.
    rewrite (evaluate_unfold N env e1).
    assert (Hl : lastValue e1 = Some v) by apply lastValue_setLastValue.
    rewrite Hl. destruct (isConstant e1).
    - rewrite method_cached. now split.
    - rewrite method_dynamic, stored_value, stored_object, Hv. now split. }
  rewrite (evaluate_unfold N env e) at 1 2 3 4.
  destruct (lastValue e) as [w|] eqn:El; [|exact Hstored].
  destruct (isConstant e) eqn:Ec; [|rewrite method_dynamic; exact Hstored].
  rewrite method_cached. unfold valueOf, objectOf. cbn [fst snd].
  rewrite (evaluate_cached N env e w Ec El). now split.
Qed.

Lemma evaluate_again (N : Node -> NumberNode) (env : Environment) :
  (forall e,
      valueOf (evaluate N env (objectOf (evaluate N env e))) =
        valueOf (evaluate N env e) /\
      objectOf (evaluate N env (objectOf (evaluate N env e))) =
        objectOf (evaluate N env e)) /\
  (forall x,
      valueOf (Evaluator_evaluate N env (objectOf (Evaluator_evaluate N env x))) =
        valueOf (Evaluator_evaluate N env x) /\
      objectOf (Evaluator_evaluate N env (objectOf (Evaluator_evaluate N env x))) =
        objectOf (Evaluator_evaluate N env x)).
Proof.
  apply Evaluator_Evaluatable_ind.
  - intros ident last. apply evaluate_again_method. now split.
  - intros last. apply evaluate_again_method. now split.
  - intros x last [Hv Ho]. apply evaluate_again_method. cbn zeta. simpl.
    destruct (Evaluator_evaluate N env x) as [[v x'] k].
    unfold valueOf, objectOf in *. cbn [fst snd] in *. simpl.
    destruct (Evaluator_evaluate N env x') as [[v2 x''] k2].
    cbn [fst snd] in *. subst. now split.
  - intros o l r last [Hvl Hol] [Hvr Hor]. apply evaluate_again_method.
    cbn zeta. simpl.
    destruct (Evaluator_evaluate N env l) as [[lv l'] kl].
    destruct (Evaluator_evaluate N env r) as [[rv r'] kr].
    unfold valueOf, objectOf in *. cbn [fst snd] in *. simpl.
    destruct (Evaluator_evaluate N env l') as [[lv2 l''] kl2].
    destruct (Evaluator_evaluate N env r') as [[rv2 r''] kr2].
    cbn [fst snd] in *. subst. now split.
  - intros node. now split.
  - intros e [Hv Ho]. simpl.
    destruct (evaluate N env e) as [[v e'] k].
    unfold valueOf, objectOf in *. cbn [fst snd] in *. simpl.
    destruct (evaluate N env e') as [[v2 e''] k2].
    cbn [fst snd] in *. subst. now split.
Qed.

(** X7.  A second call of [evaluate()] in the same environment returns the
    value of the first and leaves the object as the first call left it,
    whatever the caches held before. *)
Theorem evaluate_twice_same_environment (N : Node -> NumberNode)
    (env : Environment) (e : Evaluator) :
  valueOf (evaluate N env (objectOf (evaluate N env e))) =
    valueOf (evaluate N env e) /\
  objectOf (evaluate N env (objectOf (evaluate N env e))) =
    objectOf (evaluate N env e).
Proof. apply evaluate_again. Qed.

Lemma SphericalEvaluator_evaluate_structure (N : Node -> NumberNode)
    (env : Environment) (s : SphericalEvaluator) :
  let s' := objectOf (SphericalEvaluator_evaluate N env s) in
  Evaluatable_structure (theta s') = Evaluatable_structure (theta s) /\
  Evaluatable_structure (phi s') = Evaluatable_structure (phi s) /\
  Evaluatable_structure (radius s') = Evaluatable_structure (radius s).
Proof.
  cbn zeta.
  pose proof (proj2 (evaluate_structure N env) (theta s)) as Ht.
  pose proof (proj2 (evaluate_structure N env) (phi s)) as Hp.
  pose proof (proj2 (evaluate_structure N env) (radius s)) as Hr.
  unfold SphericalEvaluator_evaluate, SphericalEvaluator_evaluate_step.
  destruct (Evaluator_evaluate N env (radius s)) as [[rv r'] kr].
  destruct (Evaluator_evaluate N env (theta s)) as [[tv t'] kt].
  destruct (Evaluator_evaluate N env (phi s)) as [[pv p'] kp].
  unfold objectOf in *. cbn [fst snd] in *.
  destruct (sphericalLastValue s) as [v|];
    [destruct (SphericalEvaluator_isConstant s)|]; cbn; now repeat split.
Qed.

(** X8.  Evaluation changes nothing but caches: after any sequence of calls
    the evaluator has the operators, operands, identifiers and shape it was
    built with, and so has a spherical evaluator in its three slots. *)
Theorem evaluate_only_fills_caches (N : Node -> NumberNode)
    (envs : list Environment) :
  (forall e, Forall (fun outcome => structure (objectOf outcome) = structure e)
               (evaluate_each N envs e)) /\
  (forall s, Forall
               (fun outcome =>
                  Evaluatable_structure (theta (objectOf outcome)) =
                    Evaluatable_structure (theta s) /\
                  Evaluatable_structure (phi (objectOf outcome)) =
                    Evaluatable_structure (phi s) /\
                  Evaluatable_structure (radius (objectOf outcome)) =
                    Evaluatable_structure (radius s))
               (SphericalEvaluator_evaluate_each N envs s)).
Proof.
  split.
  - induction envs as [|env envs IH]; intros e; [constructor|].
    cbn [evaluate_each]. constructor.
    + apply evaluate_structure.
    + eapply Forall_impl; [|apply IH].
      intros outcome H. cbn beta in H. rewrite H. apply evaluate_structure.
  - induction envs as [|env envs IH]; intros s; [constructor|].
    cbn [SphericalEvaluator_evaluate_each]. constructor.
    + apply SphericalEvaluator_evaluate_structure.
    + eapply Forall_impl; [|apply IH].
      destruct (SphericalEvaluator_evaluate_structure N env s) as (Ht & Hp & Hr).
      intros outcome (H1 & H2 & H3). cbn beta.
      now rewrite H1, H2, H3, Ht, Hp, Hr.
Qed.


(** ** Deserializers *)

Lemma existsb_eqb_In (name : string) (l : list string) :
  existsb (String.eqb name) l = true <-> In name l.
Proof.
  rewrite existsb_exists. split.
  - intros (x & Hx & E). apply String.eqb_eq in E. now subst.
  - intros H. exists name. split; [exact H|apply String.eqb_refl].
Qed.

Lemma Set_add_In (members : list string) (name x : string) :
  In x (Set_add members name) <-> In x members \/ x = name.
Proof.
  unfold Set_add. destruct (existsb (String.eqb name) members) eqn:E.
  - apply existsb_eqb_In in E. split; [now left|].
    intros [H| ->]; assumption.
  - rewrite in_app_iff. simpl. intuition congruence.
Qed.

Lemma Set_add_NoDup (members : list string) (name : string) :
  NoDup members -> NoDup (Set_add members name).
Proof.
  intros H. unfold Set_add.
  destruct (existsb (String.eqb name) members) eqn:E; [exact H|].
  assert (Hn : ~ In name members).
  { intros Hin. apply existsb_eqb_In in Hin. congruence. }
  clear E. induction H as [|y l Hy Hl IH]; simpl.
  - constructor; [intros []|constructor].
  - constructor.
    + rewrite in_app_iff. simpl. intros [Hin|[E|[]]]; [contradiction|].
      subst. apply Hn. now left.
    + apply IH. intros Hin. apply Hn. now right.
Qed.

Lemma fold_Set_add (names : list string) :
  forall members,
    NoDup members ->
    NoDup (fold_left Set_add names members) /\
    forall x, In x (fold_left Set_add names members) <->
              In x members \/ In x names.
Proof.
  induction names as [|name names IH]; intros members Hm; simpl.
  - split; [exact Hm|]. intros x. tauto.
  - destruct (IH (Set_add members name) (Set_add_NoDup _ _ Hm)) as [H1 H2].
    split; [exact H1|]. intros x. rewrite H2, Set_add_In.
    intuition congruence.
Qed.

Lemma identNodes_In (terms : list ExpressionTerm) (i : IdentNode) :
  In i (identNodes terms) <-> In (TIdent i) terms.
Proof.
  unfold identNodes. rewrite in_flat_map. split.
  - intros (t & Ht & Hi). destruct t; simpl in Hi; try contradiction.
    destruct Hi as [->|[]]. exact Ht.
  - intros H. exists (TIdent i). split; [exact H|now left].
Qed.

(** X10.  The set an enumeration deserializer returns holds no name twice
    and only allowed names; it is empty when the parser throws; and when
    the parser returns, a name is in the set exactly when it is allowed and
    is the value of an identifier among the terms of the first
    expression. *)
Theorem enumerationDeserializer_members
    (parseExpressions : string -> Completion (list ExpressionNode))
    (allowedNames : list string) (valueString : string) :
  let result :=
    enumerationDeserializer parseExpressions allowedNames valueString in
  NoDup result /\
  (forall name, In name result -> In name allowedNames) /\
  (parseExpressions valueString = Throw -> result = []) /\
  (forall expressions,
      parseExpressions valueString = Normal expressions ->
      forall name,
        In name result <->
        In name allowedNames /\
        In (TIdent (identNode name)) (firstTerms expressions)).
Proof.
  cbn zeta. unfold enumerationDeserializer.
  destruct (parseExpressions valueString) as [expressions|].
  - fold (firstTerms expressions).
    destruct (fold_Set_add
                (filter (fun name => existsb (String.eqb name) allowedNames)
                   (map ident_value (identNodes (firstTerms expressions))))
                [] (NoDup_nil _)) as [Hnodup Hin].
    assert (Hmember : forall name,
               In name
                 (fold_left Set_add
                    (filter (fun name => existsb (String.eqb name) allowedNames)
                       (map ident_value (identNodes (firstTerms expressions))))
                    []) <->
               In name allowedNames /\
               In (TIdent (identNode name)) (firstTerms expressions)).
    { intros name. rewrite Hin, filter_In, in_map_iff, existsb_eqb_In.
      split.
      - intros [[]|[(i & Hi & Hterm) Hallowed]]. split; [exact Hallowed|].
        apply identNodes_In in Hterm. destruct i as [v]. simpl in Hi.
        now subst.
      - intros [Hallowed Hterm]. right. split; [|exact Hallowed].
        exists (identNode name). split; [reflexivity|].
        now apply identNodes_In. }
    split; [exact Hnodup|]. split; [intros name H; now apply Hmember in H|].
    split; [discriminate|].
    intros expressions' E. inversion E; subst. exact Hmember.
  - split; [constructor|]. split; [intros name []|]. split; [reflexivity|].
    discriminate.
Qed.

(** ** What built evaluators return *)

Lemma applyOperator_number (o : OperatorNode) (leftNode rightNode : NumberNode) :
  exists n, applyOperator o leftNode rightNode = Number n.
Proof.
  unfold applyOperator. destruct (mismatched _ _); [now eexists|].
  destruct (operator_value o =? "+"); [now eexists|].
  destruct (operator_value o =? "-"); [now eexists|].
  destruct (operator_value o =? "/"); [now eexists|].
  destruct (operator_value o =? "*"); now eexists.
Qed.

Lemma EnvEvaluator_evaluate_number (env : Environment) (ident : option IdentNode) :
  exists n, EnvEvaluator_evaluate env ident = Number n.
Proof.
  unfold EnvEvaluator_evaluate. destruct ident as [i|]; [|now eexists].
  destruct (ident_value i =? "window-scroll-y"); now eexists.
Qed.

Lemma evaluatableFor_yields (t : ExpressionTerm) (x : Evaluatable) :
  evaluatableFor t = Normal x -> yieldsNumberOrBareOperator x.
Proof.
  revert x. apply evaluatableFor_invariant; unfold yieldsNumberOrBareOperator.
  - intros n. split; [discriminate|]. intros N env. simpl. now eexists.
  - intros o. split; [discriminate|]. reflexivity.
  - intros o l r _ _ _ _. split; [discriminate|]. intros N env. simpl.
    apply applyOperator_number.
  - intros ident. split; [discriminate|]. intros N env. simpl.
    apply EnvEvaluator_evaluate_number.
  - split; [discriminate|]. intros N env. simpl. now eexists.
  - intros x [Hi Hx]. split; [discriminate|]. intros N env.
    specialize (Hx N env). simpl.
    destruct x as [[n|i|o]|e]; simpl in *; exact Hx.
Qed.

(** X9.  On every call, an evaluator the dispatch has built returns a number
    node, unless it is a chain of [calc()] evaluators around one bare
    operator node, in which case it returns that operator node; the
    [calc()] of a term list holding one operator node is such a chain. *)
Theorem built_evaluator_yields (N : Node -> NumberNode) (t : ExpressionTerm)
    (e : Evaluator) (envs : list Environment) :
  evaluatableFor t = Normal (Computed e) ->
  Forall (fun outcome =>
            match bareOperator e with
            | Some o => valueOf outcome = Operator o
            | None => exists n, valueOf outcome = Number n
            end)
    (evaluate_each N envs e) /\
  forall o,
    evaluatableFor (functionNode "calc" [expressionNode [TOperator o]]) =
      Normal (Computed (CalcEvaluator (Some (Plain (Operator o))) None)) /\
    bareOperator (CalcEvaluator (Some (Plain (Operator o))) None) = Some o.
Proof.
  intros H. split; [|intros o; split; reflexivity].
  pose proof (evaluate_each_uncachedValue N envs e
                (cachesAgree_fresh N (Computed e) (evaluatableFor_fresh _ _ H)))
    as Hvalues.
  destruct (evaluatableFor_yields _ _ H) as [_ Hy].
  assert (Hall : Forall (fun v =>
                           match bareOperator e with
                           | Some o => v = Operator o
                           | None => exists n, v = Number n
                           end)
                   (map valueOf (evaluate_each N envs e))).
  { rewrite Hvalues. apply Forall_map, Forall_forall. intros env _.
    exact (Hy N env). }
  now apply Forall_map in Hall.
Qed.


(* ================================================================== *)
(** * Instances *)

(** A constant evaluator: one run of its step, then the cache. *)
Lemma evaluate_caching_witness :
  isConstant plusOne = true /\ lastValue plusOne = None /\
  (evaluate normalizeUnit scrolledFullPage plusOne =
     stored setLastValue (evaluate_step normalizeUnit scrolledFullPage plusOne) /\
   Forall
     (fun r =>
        r = (valueOf (evaluate normalizeUnit scrolledFullPage plusOne),
             objectOf (evaluate normalizeUnit scrolledFullPage plusOne), 0))
     (evaluate_each normalizeUnit [scrolledFullPage; scrolledFullPage]
        (objectOf (evaluate normalizeUnit scrolledFullPage plusOne)))).
Proof.
  split; [reflexivity|]. split; [reflexivity|].
  exact (proj1 (proj1 (evaluate_caching normalizeUnit) plusOne)
           eq_refl eq_refl scrolledFullPage [scrolledFullPage; scrolledFullPage]).
Defined.

Lemma calc_complex_expression_witness :
  (forall x, normalizeUnit (Number (unitless x)) = unitless x) /\
  valueOf (evaluate normalizeUnit scrolledFullPage
             (CalcEvaluator (Some complexTree) None)) = Number (unitless 4).
Proof.
  split; [reflexivity|].
  exact (proj1 (proj2 (proj2 (calc_complex_expression normalizeUnit
                                scrolledFullPage (fun x => eq_refl))))).
Defined.

Lemma operator_mismatched_units_witness :
  valueOf (evaluate normalizeUnit scrolledFullPage
             (OperatorEvaluator (operatorNode "+")
                (Plain (Number (numberNode 1 (Some "m"))))
                (Plain (Number (numberNode 1 (Some "rad")))) None))
  = Number ZERO.
Proof.
  apply (operator_mismatched_units normalizeUnit scrolledFullPage
           (operatorNode "+") _ _ "m" "rad");
    [reflexivity | reflexivity | discriminate].
Defined.

Lemma operator_normalizes_operands_witness :
  valueOf (evaluate normalizeUnit scrolledFullPage
             (OperatorEvaluator (operatorNode "-")
                (Plain (Number (numberNode 90 (Some "deg"))))
                (Plain (Number (numberNode 1 None))) None))
  = Number (numberNode (90 * Math_PI / 180 - 1) (Some "rad")).
Proof.
  refine (proj1 (proj2 (proj2 (proj2 (proj2 (proj2 (proj2 (proj2
            operator_normalizes_operands)))))))
            scrolledFullPage (operatorNode "-") PrimFloat.sub
            (numberNode 90 (Some "deg")) (numberNode 1 None) eq_refl _ _ eq_refl).
  - right; left; reflexivity.
  - left; reflexivity.
Defined.

(** [calc] without argument, and [calc] over the term lists [* 2],
    [1 2 3] and [1 2]. *)
Lemma calc_failed_reduction_witness :
  (new_CalcEvaluator evaluatableFor [] = Normal (CalcEvaluator None None) /\
   Forall (fun r => valueOf r = Number ZERO)
     (evaluate_each normalizeUnit [scrolledFullPage; scrolledFullPage]
        (CalcEvaluator None None))) /\
  (new_CalcEvaluator evaluatableFor
     [expressionNode [TOperator (operatorNode "*"); TNumber (unitless 2)]]
   = Normal (CalcEvaluator None None) /\
   Forall (fun r => valueOf r = Number ZERO)
     (evaluate_each normalizeUnit [scrolledFullPage; scrolledFullPage]
        (CalcEvaluator None None))) /\
  (new_CalcEvaluator evaluatableFor
     [expressionNode [TNumber (unitless 1); TNumber (unitless 2);
                      TNumber (unitless 3)]]
   = Normal (CalcEvaluator None None) /\
   Forall (fun r => valueOf r = Number ZERO)
     (evaluate_each normalizeUnit [scrolledFullPage; scrolledFullPage]
        (CalcEvaluator None None))) /\
  (new_CalcEvaluator evaluatableFor
     [expressionNode [TNumber (unitless 1); TNumber (unitless 2)]]
   = Normal (CalcEvaluator None None) /\
   Forall (fun r => valueOf r = Number ZERO)
     (evaluate_each normalizeUnit [scrolledFullPage; scrolledFullPage]
        (CalcEvaluator None None))).
Proof.
  split; [|split; [|split]];
    apply (calc_failed_reduction normalizeUnit scrolledFullPage [scrolledFullPage]).
  - apply fails_argument_count. discriminate.
  - eapply fails_no_left_operand; reflexivity.
  - eapply fails_middle_entry; reflexivity.
  - eapply fails_remaining; [reflexivity | reflexivity | reflexivity | discriminate].
Defined.

Lemma spherical_radius_identifier_witness :
  new_SphericalEvaluator
    [expressionNode [TNumber (numberNode 1 (Some "rad"));
                     TNumber (numberNode 180 (Some "deg"));
                     TIdent (identNode "far")]]
  = Normal (mkSpherical (Plain (Number (numberNode 1 (Some "rad"))))
              (Plain (Number (numberNode 180 (Some "deg"))))
              (Plain (Ident (identNode "far"))) None) /\
  valueOf (SphericalEvaluator_evaluate normalizeUnit scrolledFullPage
             (mkSpherical (Plain (Number (numberNode 1 (Some "rad"))))
                (Plain (Number (numberNode 180 (Some "deg"))))
                (Plain (Ident (identNode "far"))) None))
  = (1%float, Math_PI, inr "far") /\
  radius (objectOf
            (SphericalEvaluator_evaluate normalizeUnit scrolledFullPage
               (mkSpherical (Plain (Number (numberNode 1 (Some "rad"))))
                  (Plain (Number (numberNode 180 (Some "deg"))))
                  (Plain (Ident (identNode "far"))) None)))
  = Plain (Ident (identNode "far")).
Proof.
  exact (spherical_radius_identifier normalizeUnit scrolledFullPage
           (TNumber (numberNode 1 (Some "rad")))
           (TNumber (numberNode 180 (Some "deg")))
           (identNode "far") [] [] _ _ eq_refl eq_refl).
Defined.

Lemma evaluatableFor_builds_fresh_witness :
  evaluatableFor complexCall =
    Normal (Computed (CalcEvaluator (Some complexTree) None)) /\
  (Evaluatable_structure (Computed (CalcEvaluator (Some complexTree) None)) =
     Computed (CalcEvaluator (Some complexTree) None) /\
   Evaluatable_operandsAreValues
     (Computed (CalcEvaluator (Some complexTree) None)) /\
   isValue (Computed (CalcEvaluator (Some complexTree) None)) = true).
Proof.
  split; [reflexivity|].
  exact (evaluatableFor_builds_fresh complexCall _ eq_refl).
Defined.

Lemma evaluatableFor_constant_witness :
  mentionsEnv complexCall = false /\
  Evaluator_isConstant (Computed (CalcEvaluator (Some complexTree) None)) = true.
Proof.
  split; [reflexivity|].
  exact (evaluatableFor_constant complexCall _ eq_refl eq_refl).
Defined.

Lemma built_evaluator_ignores_history_witness :
  evaluatableFor (nestedEnv 1) =
    Normal (Computed
              (CalcEvaluator
                 (Some (operation "+" (literal 1)
                          (Computed (EnvEvaluator (Some windowScrollY) None))))
                 None)) /\
  map valueOf
    (evaluate_each normalizeUnit [restingFullPage; scrolledFullPage; restingFullPage]
       (CalcEvaluator
          (Some (operation "+" (literal 1)
                   (Computed (EnvEvaluator (Some windowScrollY) None))))
          None)) =
  map (fun env =>
         uncachedValue normalizeUnit env
           (CalcEvaluator
              (Some (operation "+" (literal 1)
                       (Computed (EnvEvaluator (Some windowScrollY) None))))
              None))
    [restingFullPage; scrolledFullPage; restingFullPage].
Proof.
  split; [reflexivity|].
  exact (built_evaluator_ignores_history normalizeUnit (nestedEnv 1) _
           [restingFullPage; scrolledFullPage; restingFullPage] eq_refl).
Defined.

Lemma built_spherical_ignores_history_witness :
  new_SphericalEvaluator [] = Normal defaultSpherical /\
  map valueOf
    (SphericalEvaluator_evaluate_each normalizeUnit
       [restingFullPage; scrolledFullPage] defaultSpherical) =
  map (fun env => SphericalEvaluator_uncachedValue normalizeUnit env defaultSpherical)
    [restingFullPage; scrolledFullPage].
Proof.
  split; [reflexivity|].
  exact (built_spherical_ignores_history normalizeUnit [] defaultSpherical
           [restingFullPage; scrolledFullPage] eq_refl).
Defined.

(** [2 + 3 * 4] *)
Lemma calc_computes_precedence_witness :
  (forall x, normalizeUnit (Number (unitless x)) = unitless x) /\
  calcValue 2 [(operatorNode "+", 3%float); (operatorNode "*", 4%float)]
  = 14%float /\
  exists c,
    new_CalcEvaluator evaluatableFor
      [expressionNode
         (TNumber (unitless 2) ::
          flattenTerms
            (numberOperands
               [(operatorNode "+", 3%float); (operatorNode "*", 4%float)]))]
    = Normal c /\
    valueOf (evaluate normalizeUnit restingFullPage c) =
    Number (unitless
              (calcValue 2
                 [(operatorNode "+", 3%float); (operatorNode "*", 4%float)])).
Proof.
  split; [reflexivity|]. split; [reflexivity|].
  exact (calc_computes_precedence normalizeUnit restingFullPage 2
           [(operatorNode "+", 3%float); (operatorNode "*", 4%float)]
           (fun x => eq_refl)).
Defined.

Lemma operator_unknown_symbol_witness :
  arithmetic "$" = None /\
  Forall (fun outcome => valueOf outcome = Number ZERO)
    (evaluate_each normalizeUnit [restingFullPage; scrolledFullPage]
       (OperatorEvaluator (operatorNode "$") (literal 1) (literal 1) None)).
Proof.
  split; [reflexivity|].
  exact (operator_unknown_symbol normalizeUnit (operatorNode "$")
           (literal 1) (literal 1) [restingFullPage; scrolledFullPage] eq_refl).
Defined.

Lemma built_evaluator_yields_witness :
  evaluatableFor complexCall =
    Normal (Computed (CalcEvaluator (Some complexTree) None)) /\
  Forall (fun outcome => exists n, valueOf outcome = Number n)
    (evaluate_each normalizeUnit [restingFullPage; scrolledFullPage]
       (CalcEvaluator (Some complexTree) None)).
Proof.
  split; [reflexivity|].
  exact (proj1 (built_evaluator_yields normalizeUnit complexCall
                  (CalcEvaluator (Some complexTree) None)
                  [restingFullPage; scrolledFullPage] eq_refl)).
Defined.

